(** * Bonsai: ignore rules, filter policy and tree building

    A shallow embedding of the filtering and traversal core of Bonsai
    ([src/bonsai/utils.py], [src/bonsai/processor.py], [src/bonsai/config.py]),
    of its two renderings and of the size, icon and content helpers.

    Conventions of the embedding.
    - A Python [str] is a [string]. The embedding is exact for ASCII text;
      [strip], [lower] and the one-character wildcards see any other
      character as the bytes of its encoding and leave them alone.
    - A [pathlib.Path] is the list of the components of an absolute POSIX
      path.
    - The filesystem is an explicit value: what it holds at a path is an
      [fsobject], and a directory carries its listing in the order
      [iterdir] yields it. Reading a rule file is a [rule_file];
      [open_text] gives the one of a regular file from its bytes.
    - A Python [set] of patterns is a [gset string]; the order in which a
      [for] loop visits it is a parameter ([set_iter]).
    - An exception that a function lets out is an explicit result; a
      function that catches everything has a plain result type. *)

From Stdlib Require Import Ascii.
From Stdlib Require DecimalString.
From stdpp Require Import base option list sorting gmap strings.

Local Open Scope Z_scope.

(** ** Python string primitives *)

Module PyStr.

(** [s.startswith(prefix)] *)
Fixpoint startswith (s prefix : string) {struct prefix} : bool :=
  match prefix, s with
  | EmptyString, _ => true
  | String _ _, EmptyString => false
  | String b prefix', String a s' => Ascii.eqb a b && startswith s' prefix'
  end.

(** [s.endswith(suffix)]: some tail of [s] is [suffix]. *)
Fixpoint endswith (s suffix : string) : bool :=
  bool_decide (s = suffix)
  || match s with
     | EmptyString => false
     | String _ s' => endswith s' suffix
     end.

(** [s[1:]] *)
Definition drop_first (s : string) : string :=
  match s with
  | EmptyString => EmptyString
  | String _ s' => s'
  end.

(** [s[:-1]] *)
Fixpoint drop_last (s : string) : string :=
  match s with
  | EmptyString => EmptyString
  | String a s' =>
      match s' with
      | EmptyString => EmptyString
      | String _ _ => String a (drop_last s')
      end
  end.

(** [c in s] for a one-character [c] *)
Fixpoint contains (c : ascii) (s : string) : bool :=
  match s with
  | EmptyString => false
  | String a s' => Ascii.eqb a c || contains c s'
  end.

(** [s.split(sep)] for a one-character separator: never the empty list,
    empty fields are kept. *)
Fixpoint split (sep : ascii) (s : string) : list string :=
  match s with
  | EmptyString => [EmptyString]
  | String a s' =>
      if Ascii.eqb a sep then EmptyString :: split sep s'
      else match split sep s' with
           | [] => [String a EmptyString]
           | w :: ws => String a w :: ws
           end
  end.

(** [sep.join(parts)] *)
Fixpoint join (sep : string) (parts : list string) : string :=
  match parts with
  | [] => EmptyString
  | [w] => w
  | w :: ws => w +:+ sep +:+ join sep ws
  end.

(** [str.isspace] on one character: TAB, LF, VT, FF, CR, FS, GS, RS, US
    and the blank. *)
Definition isspace (a : ascii) : bool :=
  let n := N_of_ascii a in
  ((9 <=? n)%N && (n <=? 13)%N) || ((28 <=? n)%N && (n <=? 32)%N).

Fixpoint lstrip (s : string) : string :=
  match s with
  | EmptyString => EmptyString
  | String a s' => if isspace a then lstrip s' else s
  end.

(** [s.strip()] *)
Definition strip (s : string) : string :=
  String.rev (lstrip (String.rev (lstrip s))).

Definition lower_char (a : ascii) : ascii :=
  let n := N_of_ascii a in
  if ((65 <=? n)%N && (n <=? 90)%N)%bool then ascii_of_N (n + 32) else a.

(** [s.lower()] *)
Fixpoint lower (s : string) : string :=
  match s with
  | EmptyString => EmptyString
  | String a s' => String (lower_char a) (lower s')
  end.

End PyStr.

(** ** [fnmatch.fnmatch] of the Python standard library

    [matches_pattern] delegates every wildcard comparison to
    [fnmatch.fnmatch]. On POSIX [os.path.normcase] is the identity, so
    [fnmatch(name, pat)] is [re.match(translate(pat), name)]; [translate]
    closes the expression with [\Z], which makes it a match of the whole
    name. The model follows [translate]: the pattern becomes a list of
    regular-expression items, matched against the whole name. *)

Module Fnmatch.

Inductive re_item : Type :=
| RStar                                            (* [.*] under DOTALL *)
| RAny                                             (* [.] under DOTALL *)
| RNever                                           (* [(?!)] *)
| RSet (negated : bool) (chunks : list (list ascii)) (* [[stuff]] *)
| RLit (c : ascii).                                (* [re.escape(c)] *)

Definition ascii_le (a b : ascii) : bool := (N_of_ascii a <=? N_of_ascii b)%N.
Definition ascii_gt (a b : ascii) : bool := (N_of_ascii b <? N_of_ascii a)%N.

(** The characters from the bracket's opening to its closing [']'],
    and what follows it: a ['!'] and then a [']'] right after the
    opening bracket do not close it. [None] when no [']'] closes it. *)
Fixpoint until_close (p : list ascii) : option (list ascii * list ascii) :=
  match p with
  | [] => None
  | c :: p' =>
      if Ascii.eqb c "]" then Some ([], p')
      else '(stuff, rest) ← until_close p'; Some (c :: stuff, rest)
  end.

Definition bracket_close (p : list ascii) : option (list ascii * list ascii) :=
  let '(pre1, p1) :=
    match p with
    | c :: p' => if Ascii.eqb c "!" then ([c], p') else ([], p)
    | [] => ([], p)
    end in
  let '(pre2, p2) :=
    match p1 with
    | c :: p' => if Ascii.eqb c "]" then ([c], p') else ([], p1)
    | [] => ([], p1)
    end in
  '(stuff, rest) ← until_close p2; Some (pre1 ++ pre2 ++ stuff, rest).

(** The loop that cuts [stuff] at the hyphens that can make a range:
    [skip] characters are taken before a hyphen is looked for (the
    [k = k+3] of the source leaves two after each cut). [acc] is the
    chunk under construction, reversed. *)
Fixpoint cut_chunks (skip : nat) (acc : list ascii) (stuff : list ascii)
  : list (list ascii) * list ascii :=
  match stuff with
  | [] => ([], rev acc)
  | c :: stuff' =>
      match skip with
      | O =>
          if Ascii.eqb c "-" then
            let '(chunks, final) := cut_chunks 2 [] stuff' in
            (rev acc :: chunks, final)
          else cut_chunks O (c :: acc) stuff'
      | S n => cut_chunks n (c :: acc) stuff'
      end
  end.

Fixpoint snoc_hyphen (chunks : list (list ascii)) : list (list ascii) :=
  match chunks with
  | [] => []
  | [ch] => [ch ++ ["-"%char]]
  | ch :: chunks' => ch :: snoc_hyphen chunks'
  end.

Definition chunks_of (stuff : list ascii) : list (list ascii) :=
  let skip := match stuff with
              | c :: _ => if Ascii.eqb c "!" then 2%nat else 1%nat
              | [] => 1%nat
              end in
  let '(chunks, final) := cut_chunks skip [] stuff in
  match final with
  | [] => snoc_hyphen chunks
  | _ :: _ => chunks ++ [final]
  end.

(** One step of "remove empty ranges", for the chunk [ch] in front of the
    chunks already treated (the source walks the indices downwards). *)
Definition drop_empty_range (ch : list ascii) (done : list (list ascii))
  : list (list ascii) :=
  match done with
  | [] => [ch]
  | nxt :: done' =>
      match last ch, head nxt with
      | Some hi, Some lo =>
          if ascii_gt hi lo then (removelast ch ++ tail nxt) :: done'
          else ch :: done
      | _, _ => ch :: done
      end
  end.

(** The item for [[stuff]]. *)
Definition bracket_item (stuff : list ascii) : re_item :=
  let chunks :=
    if existsb (Ascii.eqb "-") stuff
    then foldr drop_empty_range [] (chunks_of stuff)
    else [stuff] in
  match chunks with
  | [[]] => RNever
  | (c :: ch) :: chunks' =>
      if Ascii.eqb c "!" then
        match ch, chunks' with
        | [], [] => RAny
        | _, _ => RSet true (ch :: chunks')
        end
      else RSet false chunks
  | _ => RSet false chunks
  end.

(** A run of [*] is one [*]. *)
Definition add_star (res : list re_item) : list re_item :=
  match res with
  | RStar :: _ => res
  | _ => RStar :: res
  end.

Fixpoint translate_aux (fuel : nat) (pat : list ascii) : list re_item :=
  match fuel, pat with
  | O, _ => []
  | _, [] => []
  | S fuel', c :: p =>
      if Ascii.eqb c "*" then add_star (translate_aux fuel' p)
      else if Ascii.eqb c "?" then RAny :: translate_aux fuel' p
      else if Ascii.eqb c "[" then
        match bracket_close p with
        | None => RLit c :: translate_aux fuel' p
        | Some (stuff, rest) => bracket_item stuff :: translate_aux fuel' rest
        end
      else RLit c :: translate_aux fuel' p
  end.

(** [fnmatch.translate]: one unit of fuel per character is enough
    ([translate_aux_fuel] below). *)
Definition translate (pat : list ascii) : list re_item :=
  translate_aux (length pat) pat.

(** Membership in the character set written by the chunks: a chunk's
    characters, and the range from the last character of a chunk to the
    first one of the next. *)
Fixpoint in_chunks (c : ascii) (chunks : list (list ascii)) : bool :=
  match chunks with
  | [] => false
  | ch :: chunks' =>
      existsb (Ascii.eqb c) ch
      || match last ch, chunks' with
         | Some lo, nxt :: _ =>
             match head nxt with
             | Some hi => ascii_le lo c && ascii_le c hi
             | None => false
             end
         | _, _ => false
         end
      || in_chunks c chunks'
  end.

Definition item_accepts (it : re_item) (c : ascii) : bool :=
  match it with
  | RStar | RAny => true
  | RNever => false
  | RSet negated chunks => xorb negated (in_chunks c chunks)
  | RLit c' => Ascii.eqb c c'
  end.

(** Match of the whole of [name]. *)
Fixpoint re_fullmatch (res : list re_item) (name : list ascii) : bool :=
  match res with
  | [] => match name with [] => true | _ :: _ => false end
  | RStar :: res' =>
      (fix star (name : list ascii) : bool :=
         re_fullmatch res' name
         || match name with
            | [] => false
            | _ :: name' => star name'
            end) name
  | RNever :: _ => false
  | it :: res' =>
      match name with
      | [] => false
      | c :: name' => item_accepts it c && re_fullmatch res' name'
      end
  end.

Definition fnmatch (name pat : string) : bool :=
  re_fullmatch (translate (String.list_ascii_of_string pat)) (String.list_ascii_of_string name).

End Fnmatch.

(** ** [utils.py] *)

(** [matches_pattern(path_str, pattern, is_dir)]. The first [if] either
    returns or rebinds [pattern]; the rest of the body runs on the rebound
    pattern. *)
Definition matches_pattern (path_str pattern : string) (is_dir : bool) : bool :=
  let stripped : bool + string :=
    if PyStr.endswith pattern "/" then
      if negb is_dir then inl false
      else inr (PyStr.drop_last pattern)
    else inr pattern in
  match stripped with
  | inl r => r
  | inr pattern =>
      if PyStr.startswith pattern "/" then
        let pattern := PyStr.drop_first pattern in
        Fnmatch.fnmatch path_str pattern
      else if PyStr.contains "/" pattern then
        Fnmatch.fnmatch path_str pattern
      else
        let path_parts := PyStr.split "/" path_str in
        existsb (fun part => Fnmatch.fnmatch part pattern) path_parts
  end.

(** The [try] block of [parse_gitignore] either completes or is left by an
    exception; the two lists live outside it and keep what was appended. *)
Inductive outcome : Type := Completed | Raised.

(** What reading a rule file does: [open] raises, or the file yields
    [lines] (each with its line ending) and then either ends or raises
    (a decoding or I/O error in the part not yet read). Which lines the
    bytes of a file yield before a byte that does not decode is computed
    by [open_text] below. *)
Inductive rule_file : Type :=
| OpenFails
| Reads (lines : list string) (ending : outcome).

(** The body of the [for line in f] loop. *)
Definition parse_line (acc : list string * list string) (line : string)
  : list string * list string :=
  let '(ignore_patterns, include_patterns) := acc in
  let line := PyStr.strip line in
  if bool_decide (line = "") || PyStr.startswith line "#" then acc
  else if PyStr.startswith line "!" then
    (ignore_patterns, include_patterns ++ [PyStr.drop_first line])
  else (ignore_patterns ++ [line], include_patterns).

(** The [try] block: the lists as they stand when it is left, and how. *)
Definition read_rules (f : rule_file) : (list string * list string) * outcome :=
  match f with
  | OpenFails => (([], []), Raised)
  | Reads lines ending => (foldl parse_line ([], []) lines, ending)
  end.

(** [parse_gitignore(gitignore_path)], on what reading that path does:
    [except Exception: pass], then the [return] of the two lists. *)
Definition parse_gitignore (f : rule_file) : list string * list string :=
  fst (read_rules f).

(** ** Paths *)

Definition Path : Type := list string.

(** [p.name] *)
Definition Path_name (p : Path) : string := List.last p "".

(** [p / name] *)
Definition Path_div (p : Path) (name : string) : Path := p ++ [name].

(** [p.parents], nearest first. *)
Fixpoint Path_parents (p : Path) : list Path :=
  match p with
  | [] => []
  | c :: p' => map (cons c) (Path_parents p') ++ [[]]
  end.

(** [p.relative_to(other)]; [None] is the [ValueError]. *)
Fixpoint relative_to (p other : Path) : option Path :=
  match other, p with
  | [], _ => Some p
  | _ :: _, [] => None
  | b :: other', a :: p' => if bool_decide (a = b) then relative_to p' other' else None
  end.

(** [str(p)] for an absolute path. *)
Definition Path_str (p : Path) : string := "/" +:+ PyStr.join "/" p.

(** [str(p)] for a relative path. *)
Definition rel_str (p : Path) : string :=
  match p with
  | [] => "."
  | _ :: _ => PyStr.join "/" p
  end.

(** [find_gitignore_files(root_path)]; [exists_] answers
    [gitignore_path.exists()]. *)
Definition find_gitignore_files (exists_ : Path → bool) (root_path : Path) : list Path :=
  filter (λ gitignore_path, Is_true (exists_ gitignore_path))
         (map (λ current_path, Path_div current_path ".gitignore")
              (root_path :: Path_parents root_path)).

(** ** [config.py] *)

(** The settings the core reads ([output_file] and [output_format] belong
    to the command line). *)
Record Config : Type := {
  root_path : Path;          (* [get_root_path()]: the resolved absolute path *)
  max_depth : option Z;
  show_hidden : bool;
  use_icons : bool;
  show_size : bool;
  color_output : bool;
  respect_gitignore : bool;
  custom_ignore_patterns : list string;
  force_include_patterns : list string
}.

Definition get_root_path (cfg : Config) : Path := root_path cfg.

(** ** The filesystem *)

(** What the filesystem holds at a path. [Absent]: [exists()] is [False]
    (no such path, or a dangling link in a listing). [Regular]: a regular
    file, [st_size] is [None] when [stat()] raises [OSError]. [Special]:
    it exists and is neither a directory nor a regular file.
    [Directory]: [entries] is what the directory holds, in [iterdir]'s
    order. [readable] is [false] when the [try] block of [build_tree] is
    left by [PermissionError] at this directory: [iterdir()] raises it
    (the directory cannot be listed), or [is_dir()] raises it for one of
    the entries when [sorted] computes its keys (the directory can be
    listed and not searched, or an entry is a link into such a
    directory). *)
#[warnings="-register-all"]
Inductive fsobject : Type :=
| Absent
| Regular (st_size : option Z)
| Special
| Directory (readable : bool) (entries : list (string * fsobject)).

Definition fs_exists (o : fsobject) : bool :=
  match o with Absent => false | _ => true end.
Definition fs_is_dir (o : fsobject) : bool :=
  match o with Directory _ _ => true | _ => false end.
Definition fs_is_file (o : fsobject) : bool :=
  match o with Regular _ => true | _ => false end.

(** [get_file_size(path)] *)
Definition get_file_size (o : fsobject) : Z :=
  match o with
  | Regular (Some st_size) => st_size
  | _ => 0
  end.

(** The rule files of the filesystem. *)
Record rulefs : Type := {
  gi_exists : Path → bool;
  gi_read : Path → rule_file
}.

(** ** [sorted] *)

Section sorted.
Context {A K : Type} (key : A → K) (lt : K → K → bool).

(** [x] goes in front of the first element that is not smaller than it:
    elements with equal keys stay in the order they came ([sorted] is
    stable). *)
Fixpoint insert_by (x : A) (l : list A) : list A :=
  match l with
  | [] => [x]
  | y :: l' => if lt (key y) (key x) then y :: insert_by x l' else x :: l
  end.

Definition sorted (l : list A) : list A := foldr insert_by [] l.
End sorted.

(** Python's [<] on the tuples [(bool, str)]: the first components decide
    when they differ ([False < True]), else the strings do. *)
Definition key_lt (k1 k2 : bool * string) : bool :=
  if bool_decide (k1.1 = k2.1) then String.ltb k1.2 k2.2
  else negb k1.1 && k2.1.

(** ** [processor.py] *)

#[warnings="-register-all"]
Inductive TreeNode : Type := mkTreeNode {
  path : Path;
  name : string;
  is_dir : bool;
  size : Z;
  children : list TreeNode
}.

Record TreeProcessor : Type := {
  config : Config;
  ignore_patterns : gset string;
  include_patterns : gset string
}.

(** [colorize_output(text, color)] for the two colours [format_tree] uses. *)
Definition colorize_output (text color : string) : string :=
  let esc := String (ascii_of_N 27) "" in
  let code :=
    if bool_decide (color = "blue") then esc +:+ "[94m"
    else if bool_decide (color = "white") then esc +:+ "[97m"
    else "" in
  code +:+ text +:+ esc +:+ "[0m".

Section processor.
(** The order in which a [for] loop visits a [set]. *)
Variable set_iter : gset string → list string.
(** [get_file_icon] and [format_file_size] of [utils.py]: display helpers,
    taken as given. *)
Variable get_file_icon : Path → string.
Variable format_file_size : Z → string.

(** [TreeProcessor._load_ignore_patterns] *)
Definition _load_ignore_patterns (fs : rulefs) (self : TreeProcessor) : TreeProcessor :=
  if negb (respect_gitignore (config self)) then self
  else
    let root_path := get_root_path (config self) in
    let gitignore_files := find_gitignore_files (gi_exists fs) root_path in
    let self :=
      foldl (λ self gitignore_file,
               let '(ignore_pats, include_pats) := parse_gitignore (gi_read fs gitignore_file) in
               {| config := config self;
                  ignore_patterns := ignore_patterns self ∪ list_to_set ignore_pats;
                  include_patterns := include_patterns self ∪ list_to_set include_pats |})
            self gitignore_files in
    {| config := config self;
       ignore_patterns :=
         ignore_patterns self ∪ list_to_set (custom_ignore_patterns (config self));
       include_patterns :=
         include_patterns self ∪ list_to_set (force_include_patterns (config self)) |}.

(** [TreeProcessor.__init__] *)
Definition TreeProcessor_init (fs : rulefs) (config : Config) : TreeProcessor :=
  _load_ignore_patterns fs
    {| config := config; ignore_patterns := ∅; include_patterns := ∅ |}.

(** [TreeProcessor.should_ignore(path, relative_path)]; [path_is_dir] is
    the filesystem's answer to [path.is_dir()]. Each [for] loop returns at
    the first pattern that matches. *)
Definition should_ignore (self : TreeProcessor)
    (path : Path) (path_is_dir : bool) (relative_path : string) : bool :=
  if negb (show_hidden (config self)) && PyStr.startswith (Path_name path) "." then true
  else if existsb (λ pattern, matches_pattern relative_path pattern path_is_dir)
                  (set_iter (include_patterns self)) then false
  else if existsb (λ pattern, matches_pattern relative_path pattern path_is_dir)
                  (set_iter (ignore_patterns self)) then true
  else false.

(** The relative path [build_tree] hands to the filter for [child_path]. *)
Definition relative_path_of (self : TreeProcessor) (child_path : Path) : string :=
  let config_root := get_root_path (config self) in
  match relative_to child_path config_root with
  | Some rel => rel_str rel
  | None => Path_name child_path
  end.

(** [current_depth > max_depth] when a maximum is configured. *)
Definition too_deep (self : TreeProcessor) (current_depth : Z) : bool :=
  match max_depth (config self) with
  | Some max_depth => bool_decide (current_depth > max_depth)
  | None => false
  end.

(** The key of the [sorted] call: [(not p.is_dir(), p.name.lower())].
    A listed child is its path, what the filesystem holds there, and the
    node the recursive call gives for it. *)
Definition child_key (listed : Path * fsobject * option TreeNode) : bool * string :=
  let '(child_path, child, _) := listed in
  (negb (fs_is_dir child), PyStr.lower (Path_name child_path)).

(** The body of the loop over the sorted listing: [None] when the child
    is skipped by the filter or its node is absent. *)
Definition visit_child (self : TreeProcessor)
    (listed : Path * fsobject * option TreeNode) : option TreeNode :=
  let '(child_path, child, child_node) := listed in
  let relative_path := relative_path_of self child_path in
  if should_ignore self child_path (fs_is_dir child) relative_path then None
  else child_node.

(** [TreeProcessor.build_tree(root_path, current_depth)]; [obj] is what
    the filesystem holds at [root_path]. The recursive call is attached
    to every listed child before the listing is sorted; the loop uses it
    for the children the filter lets through, as the source does.
    The [try] block holds the listing, the [sorted] call and the whole
    loop, and [node.children] is assigned after the loop: when the block
    is left by [PermissionError] the node keeps the empty list of
    [__post_init__], whatever was appended before. [sorted] computes the
    key of every entry before the loop starts; the loop and the recursive
    call examine an entry with the same [stat] call, and the recursive
    call catches what its own listing raises. On a filesystem that does
    not change, the block is therefore left exactly when listing the
    directory or computing a key raises, which is [readable] being
    [false]. *)
Fixpoint build_tree (self : TreeProcessor)
    (root_path : Path) (obj : fsobject) (current_depth : Z) {struct obj}
  : option TreeNode :=
  if negb (fs_exists obj) then None
  else if too_deep self current_depth then None
  else
    let node children :=
      {| path := root_path;
         name := Path_name root_path;
         is_dir := fs_is_dir obj;
         size := if fs_is_file obj then get_file_size obj else 0;
         children := children |} in
    match obj with
    | Directory readable entries =>
        if readable then
          let listing :=
            map (λ entry : string * fsobject,
                   let child_path := Path_div root_path entry.1 in
                   (child_path, entry.2,
                    build_tree self child_path entry.2 (current_depth + 1)))
                entries in
          let children := omap (visit_child self) (sorted child_key key_lt listing) in
          Some (node children)
        else Some (node [])
    | _ => Some (node [])
    end.

(** [TreeProcessor.format_tree(node, prefix, is_last)] *)
Fixpoint format_tree (self : TreeProcessor)
    (node : TreeNode) (prefix : string) (is_last : bool) : list string :=
  let connector := if is_last then "└── " else "├── " in
  let display_name :=
    if is_dir node then connector +:+ name node +:+ "/"
    else connector +:+ name node in
  let display_name :=
    if use_icons (config self) then
      let icon := get_file_icon (path node) in
      if is_dir node then connector +:+ icon +:+ " " +:+ name node +:+ "/"
      else connector +:+ icon +:+ " " +:+ name node
    else display_name in
  let display_name :=
    if show_size (config self) && negb (is_dir node) then
      display_name +:+ " (" +:+ format_file_size (size node) +:+ ")"
    else display_name in
  let display_name :=
    if color_output (config self) then
      if is_dir node then colorize_output display_name "blue"
      else colorize_output display_name "white"
    else display_name in
  let child_prefix := prefix +:+ (if is_last then "    " else "│   ") in
  (prefix +:+ display_name)
  :: (fix each (children : list TreeNode) : list string :=
        match children with
        | [] => []
        | child :: rest =>
            let is_child_last := match rest with [] => true | _ :: _ => false end in
            format_tree self child child_prefix is_child_last ++ each rest
        end) (children node).

(** [TreeProcessor.generate_tree()]; [root_obj] is what the filesystem
    holds at the configured root. *)
Definition generate_tree (self : TreeProcessor) (root_obj : fsobject) : list string :=
  let root_path := get_root_path (config self) in
  match build_tree self root_path root_obj 0 with
  | None => ["Error: Could not access " +:+ Path_str root_path]
  | Some tree => format_tree self tree "" true
  end.

End processor.

(** ** Vocabulary of the properties *)

(** The listing of a directory as the loop of [build_tree] sees it, before
    it is sorted: each child with its path and the node built for it. *)
Definition listed_children (set_iter : gset string → list string) (self : TreeProcessor)
    (root_path : Path) (entries : list (string * fsobject)) (current_depth : Z)
  : list (Path * fsobject * option TreeNode) :=
  map (λ entry : string * fsobject,
         (Path_div root_path entry.1, entry.2,
          build_tree set_iter self (Path_div root_path entry.1) entry.2
            (current_depth + 1)))
      entries.

(** Some rule of [rules] matches the entry. *)
Definition rule_matches (rules : gset string) (relative_path : string) (path_is_dir : bool) : Prop :=
  ∃ rule, rule ∈ rules ∧ matches_pattern relative_path rule path_is_dir = true.

(** The sort key of [build_tree], read off a node. *)
Definition sort_key (n : TreeNode) : bool * string :=
  (negb (is_dir n), PyStr.lower (name n)).

(** Python's [<=] on the keys. *)
Definition key_le (k1 k2 : bool * string) : Prop :=
  (k1.1 = false ∧ k2.1 = true) ∨ (k1.1 = k2.1 ∧ String.le k1.2 k2.2).

(** The children of every node of the tree are in key order. *)
#[warnings="-register-all"]
Inductive well_sorted : TreeNode → Prop :=
| well_sorted_node n :
    StronglySorted (λ a b, key_le (sort_key a) (sort_key b)) (children n) →
    Forall well_sorted (children n) →
    well_sorted n.

(** The filter, asked about the entry of node [n], lets it through. *)
Definition accepted (set_iter : gset string → list string) (self : TreeProcessor)
    (n : TreeNode) : Prop :=
  should_ignore set_iter self (path n) (is_dir n) (relative_path_of self (path n)) = false.

(** The nodes below [t]. *)
Fixpoint descendants (t : TreeNode) : list TreeNode :=
  match t with
  | mkTreeNode _ _ _ _ children =>
      (fix each (children : list TreeNode) : list TreeNode :=
         match children with
         | [] => []
         | child :: rest => child :: descendants child ++ each rest
         end) children
  end.

(** The sort key of a listed entry: that of the child path made of it. *)
Definition entry_key (entry : string * fsobject) : bool * string :=
  (negb (fs_is_dir entry.2), PyStr.lower entry.1).

(** No two entries of a directory have the same sort key, at any depth. *)
Fixpoint distinct_keys (obj : fsobject) : Prop :=
  match obj with
  | Directory _ entries =>
      NoDup (map entry_key entries)
      ∧ (fix each (entries : list (string * fsobject)) : Prop :=
           match entries with
           | [] => True
           | entry :: rest => distinct_keys entry.2 ∧ each rest
           end) entries
  | _ => True
  end.

(** The same contents, the directories possibly listed in another order:
    the entries of [o1] are, name by name, those of some reordering [mid]
    of the entries of [o2]. *)
Fixpoint relisted (o1 o2 : fsobject) : Prop :=
  match o1, o2 with
  | Directory readable1 entries1, Directory readable2 entries2 =>
      readable1 = readable2
      ∧ ∃ mid,
          (fix each (entries1 mid : list (string * fsobject)) : Prop :=
             match entries1, mid with
             | [], [] => True
             | entry1 :: rest1, entry2 :: rest2 =>
                 entry1.1 = entry2.1 ∧ relisted entry1.2 entry2.2 ∧ each rest1 rest2
             | _, _ => False
             end) entries1 mid
          ∧ mid ≡ₚ entries2
  | Directory _ _, _ => False
  | _, _ => o1 = o2
  end.

(** A valid iteration order visits every element of the set once. *)
Definition iteration_order (set_iter : gset string → list string) : Prop :=
  ∀ s, set_iter s ≡ₚ elements s.

(** ** The structured rendering of [processor.py] *)

(** The Python values [generate_json] builds: a [dict] keeps its items in
    the order they were inserted. *)
#[warnings="-register-all"]
Inductive PyValue : Type :=
| PyStr (s : string)
| PyBool (b : bool)
| PyInt (z : Z)
| PyList (items : list PyValue)
| PyDict (items : list (string * PyValue)).

(** [TreeProcessor._node_to_dict(node)]: the key ["children"] is set only
    when [node.children] is not empty. *)
Fixpoint _node_to_dict (node : TreeNode) : PyValue :=
  match node with
  | mkTreeNode node_path node_name node_is_dir node_size node_children =>
      let result :=
        [("name", PyStr node_name);
         ("path", PyStr (Path_str node_path));
         ("is_dir", PyBool node_is_dir);
         ("size", PyInt node_size)] in
      match node_children with
      | [] => PyDict result
      | _ :: _ =>
          PyDict (result ++ [("children", PyList (map _node_to_dict node_children))])
      end
  end.

(** [TreeProcessor.generate_json()] *)
Definition generate_json (set_iter : gset string → list string)
    (self : TreeProcessor) (root_obj : fsobject) : PyValue :=
  let root_path := get_root_path (config self) in
  match build_tree set_iter self root_path root_obj 0 with
  | None => PyDict [("error", PyStr ("Could not access " +:+ Path_str root_path))]
  | Some tree => _node_to_dict tree
  end.

(** [Config.should_show_file(file_path)] *)
Definition should_show_file (cfg : Config) (file_path : Path) : bool :=
  if negb (show_hidden cfg) && PyStr.startswith (Path_name file_path) "." then false
  else true.

(** The number of levels below [t]. *)
Fixpoint height (t : TreeNode) : nat :=
  match t with
  | mkTreeNode _ _ _ _ children =>
      (fix each (children : list TreeNode) : nat :=
         match children with
         | [] => 0%nat
         | child :: rest => Nat.max (S (height child)) (each rest)
         end) children
  end.

(** The number of [dict]s in a value. *)
Fixpoint dict_count (v : PyValue) : nat :=
  match v with
  | PyList items =>
      (fix each (items : list PyValue) : nat :=
         match items with
         | [] => 0%nat
         | item :: rest => (dict_count item + each rest)%nat
         end) items
  | PyDict items =>
      S ((fix each (items : list (string * PyValue)) : nat :=
            match items with
            | [] => 0%nat
            | item :: rest => (dict_count item.2 + each rest)%nat
            end) items)
  | _ => 0%nat
  end.

(** Every node of the tree, the root included, satisfies [P]. *)
Definition all_nodes (P : TreeNode → Prop) (t : TreeNode) : Prop :=
  Forall P (t :: descendants t).

(** What [build_tree] keeps true of a node: the name is the base name of
    the path, a directory has size 0, an entry that is not a directory has
    no children, and the path of a child is the path of its parent
    extended by the child's name. *)
Definition well_formed_node (n : TreeNode) : Prop :=
  name n = Path_name (path n)
  ∧ (is_dir n = true → size n = 0)
  ∧ (is_dir n = false → children n = [])
  ∧ Forall (λ child, path child = Path_div (path n) (name child)) (children n).

(** A pattern character that [fnmatch] reads as itself. *)
Definition literal_char (c : ascii) : bool :=
  negb (Ascii.eqb c "*" || Ascii.eqb c "?" || Ascii.eqb c "[").

(** A pattern without wildcard and without separator. *)
Fixpoint plain_name (s : string) : bool :=
  match s with
  | EmptyString => true
  | String c s' => literal_char c && negb (Ascii.eqb c "/") && plain_name s'
  end.

(** ** The size and content helpers of [utils.py] *)

(** A natural number in decimal, as [str] and the format codes write it. *)
Definition decimal (n : Z) : string :=
  DecimalString.NilZero.string_of_uint (N.to_uint (Z.to_N n)).

(** The integer nearest to [num / den], the even one of two that are
    equally near: the rounding of the format code [.1f], which is exact on
    the value it is given. *)
Definition round_half_even (num den : Z) : Z :=
  let q := num / den in
  let r := num mod den in
  if 2 * r <? den then q
  else if den <? 2 * r then q + 1
  else if Z.even q then q else q + 1.

(** [f"{x:.1f}"] for [x = num / den], not negative. *)
Definition fixed1 (num den : Z) : string :=
  let tenths := round_half_even (10 * num) den in
  decimal (tenths / 10) +:+ "." +:+ decimal (tenths mod 10).

(** The loop of [format_file_size] from the unit at the head of [units]
    on: the value of [size] at that point is [size / den]. The division by
    [1024.0] is a division by a power of two, exact on a float, so the
    model is exact as long as the size itself is a float, below [2^53]. *)
Fixpoint format_size_from (units : list string) (size den : Z) : string :=
  match units with
  | [] => fixed1 size den +:+ "PB"
  | unit :: units' =>
      if size <? 1024 * den then fixed1 size den +:+ unit
      else format_size_from units' size (1024 * den)
  end.

(** [format_file_size(size)]; a negative size is below [1024.0] at once. *)
Definition format_file_size (size : Z) : string :=
  if size <? 0 then "-" +:+ decimal (- size) +:+ ".0B"
  else format_size_from ["B"; "KB"; "MB"; "GB"; "TB"] size 1.

(** [Path.suffix] on the name (pathlib up to Python 3.12): the part from
    the last ['.'] on, unless that dot opens or closes the name. *)
Fixpoint last_dot (s : string) : option string :=
  match s with
  | EmptyString => None
  | String c s' =>
      match last_dot s' with
      | Some t => Some t
      | None => if Ascii.eqb c "." then Some s else None
      end
  end.

Definition Path_suffix (name : string) : string :=
  match name with
  | EmptyString => EmptyString
  | String _ rest =>
      match last_dot rest with
      | Some (String dot (String c t)) => String dot (String c t)
      | _ => EmptyString
      end
  end.

(** [bytes.decode('utf-8')] succeeds: the strict decoder takes the
    shortest forms only, no surrogate, nothing above U+10FFFF. [need] is
    the number of continuation bytes still due, [lo] and [hi] bound the
    next one. *)
Fixpoint utf8_from (need : nat) (lo hi : N) (bytes : list ascii) : bool :=
  match bytes with
  | [] => match need with O => true | S _ => false end
  | b :: bytes' =>
      let n := N_of_ascii b in
      match need with
      | S need' =>
          ((lo <=? n)%N && (n <=? hi)%N) && utf8_from need' 128 191 bytes'
      | O =>
          if (n <=? 127)%N then utf8_from 0 128 191 bytes'
          else if ((194 <=? n)%N && (n <=? 223)%N) then utf8_from 1 128 191 bytes'
          else if (n =? 224)%N then utf8_from 2 160 191 bytes'
          else if ((225 <=? n)%N && (n <=? 236)%N) then utf8_from 2 128 191 bytes'
          else if (n =? 237)%N then utf8_from 2 128 159 bytes'
          else if ((238 <=? n)%N && (n <=? 239)%N) then utf8_from 2 128 191 bytes'
          else if (n =? 240)%N then utf8_from 3 144 191 bytes'
          else if ((241 <=? n)%N && (n <=? 243)%N) then utf8_from 3 128 191 bytes'
          else if (n =? 244)%N then utf8_from 3 128 143 bytes'
          else false
      end
  end.

Definition utf8_valid (bytes : list ascii) : bool := utf8_from 0 128 191 bytes.

Definition text_extensions : list string :=
  [".txt"; ".md"; ".py"; ".js"; ".ts"; ".html"; ".css"; ".json";
   ".xml"; ".yml"; ".yaml"; ".ini"; ".cfg"; ".conf"; ".log";
   ".sql"; ".sh"; ".bat"; ".ps1"; ".c"; ".cpp"; ".h"; ".hpp";
   ".java"; ".cs"; ".php"; ".rb"; ".go"; ".rs"; ".swift"; ".kt"].

(** [is_text_file(path)]: [path_is_file] answers [path.is_file()],
    [name] is [path.name], [content] is what [open(path, 'rb')] and [read]
    give, [None] when one of them raises. *)
Definition is_text_file (path_is_file : bool) (name : string)
    (content : option (list ascii)) : bool :=
  if negb path_is_file then false
  else if bool_decide (PyStr.lower (Path_suffix name) ∈ text_extensions) then true
  else
    match content with
    | None => false
    | Some bytes =>
        let chunk := take 1024 bytes in
        match chunk with
        | [] => true
        | _ :: _ =>
            if existsb (Ascii.eqb zero) chunk then false
            else utf8_valid chunk
        end
    end.

(** [get_file_icon(path)]: [path_is_dir] answers [path.is_dir()], [name]
    is [path.name]. The icons are the strings of the source, byte for
    byte. *)
Definition icon_map : list (string * string) :=
  [(".py", "ðŸ");
   (".js", "ðŸ“œ");
   (".ts", "ðŸ“˜");
   (".html", "ðŸŒ");
   (".css", "ðŸŽ¨");
   (".json", "ðŸ“‹");
   (".md", "ðŸ“");
   (".txt", "ðŸ“„");
   (".yml", "âš™ï¸");
   (".yaml", "âš™ï¸");
   (".xml", "ðŸ“°");
   (".png", "ðŸ–¼ï¸");
   (".jpg", "ðŸ–¼ï¸");
   (".jpeg", "ðŸ–¼ï¸");
   (".gif", "ðŸ–¼ï¸");
   (".svg", "ðŸ–¼ï¸")].

Fixpoint icon_map_get (extension : string) (items : list (string * string))
    (default : string) : string :=
  match items with
  | [] => default
  | (key, icon) :: items' =>
      if bool_decide (key = extension) then icon
      else icon_map_get extension items' default
  end.

Definition get_file_icon (path_is_dir : bool) (name : string) : string :=
  if path_is_dir then "ðŸ“"
  else
    let extension := PyStr.lower (Path_suffix name) in
    icon_map_get extension icon_map "ðŸ“„".

(** The units of [format_file_size] with the number of bytes of each. *)
Definition size_units : list (string * Z) :=
  [("B", 1); ("KB", 1024); ("MB", 1024 ^ 2); ("GB", 1024 ^ 3);
   ("TB", 1024 ^ 4); ("PB", 1024 ^ 5)].

(** ** Rule files as bytes *)

(** What [open(gitignore_path, 'r', encoding='utf-8')] and [for line in f]
    make of the bytes of a regular file. The text layer of CPython
    ([io.TextIOWrapper]) asks the file for [CHUNK_SIZE] bytes at a time,
    decodes a chunk as a whole, and asks for the next chunk only when the
    decoded text holds no complete line any more. A byte that is not UTF-8
    therefore raises [UnicodeDecodeError] when its chunk is decoded: after
    every line of the chunks before it was yielded, and before any line of
    its own chunk is. *)
Definition CHUNK_SIZE : nat := Z.to_nat 8192.

(** The incremental UTF-8 decoder between two bytes: the number of
    continuation bytes still due and the bounds of the next one, as in
    [utf8_from]. *)
Definition utf8_state : Type := nat * N * N.
Definition utf8_start : utf8_state := (0%nat, 128%N, 191%N).

(** One byte through the decoder; [None] is [UnicodeDecodeError]. *)
Definition utf8_step (st : utf8_state) (b : ascii) : option utf8_state :=
  let '(need, lo, hi) := st in
  let n := N_of_ascii b in
  match need with
  | S need' =>
      if ((lo <=? n)%N && (n <=? hi)%N) then Some (need', 128%N, 191%N) else None
  | O =>
      if (n <=? 127)%N then Some (0%nat, 128%N, 191%N)
      else if ((194 <=? n)%N && (n <=? 223)%N) then Some (1%nat, 128%N, 191%N)
      else if (n =? 224)%N then Some (2%nat, 160%N, 191%N)
      else if ((225 <=? n)%N && (n <=? 236)%N) then Some (2%nat, 128%N, 191%N)
      else if (n =? 237)%N then Some (2%nat, 128%N, 159%N)
      else if ((238 <=? n)%N && (n <=? 239)%N) then Some (2%nat, 128%N, 191%N)
      else if (n =? 240)%N then Some (3%nat, 144%N, 191%N)
      else if ((241 <=? n)%N && (n <=? 243)%N) then Some (3%nat, 128%N, 191%N)
      else if (n =? 244)%N then Some (3%nat, 128%N, 143%N)
      else None
  end.

Definition utf8_complete (st : utf8_state) : bool :=
  match st with (O, _, _) => true | _ => false end.

(** The decoder does not judge the first two bytes of a surrogate (ED,
    then A0 to BF) when the chunk ends with them: it takes them for a
    character cut by the end of the chunk, and raises on the next byte or
    at the end of the file. [utf8_stuck] accepts no byte. *)
Definition utf8_stuck : utf8_state := (1%nat, 1%N, 0%N).

Definition cut_surrogate (st : utf8_state) (b : ascii) (rest : list ascii) : bool :=
  let '(need, lo, hi) := st in
  let n := N_of_ascii b in
  match need, rest with
  | 2%nat, [] => ((lo =? 128)%N && (hi =? 159)%N) && ((160 <=? n)%N && (n <=? 191)%N)
  | _, _ => false
  end.

(** [decoder.decode(chunk)]: the characters that [chunk] completes (as
    their bytes) and the decoder afterwards, which keeps the bytes of a
    character cut by the end of the chunk ([kept]) for the next call. *)
Fixpoint utf8_decode (st : utf8_state) (kept : list ascii) (chunk : list ascii)
  : option (list ascii * (utf8_state * list ascii)) :=
  match chunk with
  | [] => Some ([], (st, kept))
  | b :: chunk' =>
      match utf8_step st b with
      | None =>
          if cut_surrogate st b chunk' then Some ([], (utf8_stuck, kept ++ [b]))
          else None
      | Some st' =>
          if utf8_complete st' then
            match utf8_decode st' [] chunk' with
            | Some (text, after) => Some (kept ++ b :: text, after)
            | None => None
            end
          else utf8_decode st' (kept ++ [b]) chunk'
      end
  end.

Definition CR : ascii := ascii_of_N 13.
Definition NL : ascii := ascii_of_N 10.

(** Universal newlines ([newline=None]): a carriage return that ends the
    decoded text is held back until the next chunk tells whether a line
    feed follows it, *)
Fixpoint hold_back_cr (text : list ascii) : list ascii * bool :=
  match text with
  | [] => ([], false)
  | [c] => if Ascii.eqb c CR then ([], true) else ([c], false)
  | c :: text' => let '(t, cr) := hold_back_cr text' in (c :: t, cr)
  end.

(** and ["\r\n"] and ["\r"] become ["\n"]. *)
Fixpoint translate_newlines (text : list ascii) : list ascii :=
  match text with
  | [] => []
  | c :: text' =>
      if Ascii.eqb c CR then
        match text' with
        | d :: text'' =>
            if Ascii.eqb d NL then NL :: translate_newlines text''
            else NL :: translate_newlines text'
        | [] => [NL]
        end
      else c :: translate_newlines text'
  end.

(** The lines of [text] that are complete, each with its line feed, and
    what follows the last of them. *)
Fixpoint split_lines (text : list ascii) : list (list ascii) * list ascii :=
  match text with
  | [] => ([], [])
  | c :: text' =>
      let '(lines, rest) := split_lines text' in
      if Ascii.eqb c NL then ([c] :: lines, rest)
      else
        match lines with
        | line :: lines' => ((c :: line) :: lines', rest)
        | [] => ([], c :: rest)
        end
  end.

(** The lines that the loop is given, chunk after chunk, and how the
    reading ends. [line] is the text read so far that no line feed has
    closed. A chunk that does not decode ends the reading with the lines
    of the chunks before it; after the last chunk the decoder must not be
    in the middle of a character, and what is left is the last line. *)
Fixpoint read_lines (st : utf8_state) (kept : list ascii) (pendingcr : bool)
    (line : list ascii) (chunks : list (list ascii)) : list string * outcome :=
  match chunks with
  | [] =>
      if utf8_complete st then
        let line := line ++ (if pendingcr then [NL] else []) in
        (match line with [] => [] | _ => [String.string_of_list_ascii line] end,
         Completed)
      else ([], Raised)
  | chunk :: chunks' =>
      match utf8_decode st kept chunk with
      | None => ([], Raised)
      | Some (text, (st', kept')) =>
          let '(text, pendingcr') :=
            hold_back_cr (if pendingcr then CR :: text else text) in
          let '(lines, rest) := split_lines (line ++ translate_newlines text) in
          let '(more, ending) := read_lines st' kept' pendingcr' rest chunks' in
          (map String.string_of_list_ascii lines ++ more, ending)
      end
  end.

(** The bytes of a file in chunks of [size]; [room] is what the chunk
    under way can still take. *)
Fixpoint chunked_from (size room : nat) (bytes : list ascii) : list (list ascii) :=
  match bytes with
  | [] => []
  | b :: bytes' =>
      match room with
      | S (S room') =>
          match chunked_from size (S room') bytes' with
          | chunk :: chunks => (b :: chunk) :: chunks
          | [] => [[b]]
          end
      | _ => [b] :: chunked_from size size bytes'
      end
  end.

Definition chunked (size : nat) (bytes : list ascii) : list (list ascii) :=
  chunked_from size size bytes.

Definition text_lines (size : nat) (content : list ascii) : list string * outcome :=
  read_lines utf8_start [] false [] (chunked size content).

(** Reading a regular file that can be opened and holds [content]. *)
Definition open_text (content : list ascii) : rule_file :=
  let '(lines, ending) := text_lines CHUNK_SIZE content in
  Reads lines ending.

(** ** Sample inputs *)

(** The examples of the specification: ignore set [{"*.log"}], override
    set [{"important.log"}], here with the override [".env*"] as well. *)
Definition log_processor (show_hidden : bool) : TreeProcessor :=
  {| config := {| root_path := ["project"]; max_depth := None;
                  show_hidden := show_hidden; use_icons := false;
                  show_size := false; color_output := true;
                  respect_gitignore := true;
                  custom_ignore_patterns := []; force_include_patterns := [] |};
     ignore_patterns := {["*.log"]};
     include_patterns := {["important.log"; ".env*"]} |}.

(** A line end. *)
Definition LF : string := String (ascii_of_N 10) "".

(** A rule file whose reading raises after two lines were yielded. *)
Definition broken_rule_file : rule_file :=
  Reads ["*.log" +:+ LF; "!keep.log" +:+ LF] Raised.

(** A project whose only rule file is [broken_rule_file]. *)
Definition broken_rulefs : rulefs :=
  {| gi_exists := λ p, bool_decide (p = ["project"; ".gitignore"]);
     gi_read := λ _, broken_rule_file |}.

Definition plain_config (max_depth : option Z) : Config :=
  {| root_path := ["project"]; max_depth := max_depth;
     show_hidden := false; use_icons := false;
     show_size := false; color_output := true;
     respect_gitignore := true;
     custom_ignore_patterns := []; force_include_patterns := [] |}.

(** A processor without rules. *)
Definition plain_processor (max_depth : option Z) : TreeProcessor :=
  {| config := plain_config max_depth; ignore_patterns := ∅; include_patterns := ∅ |}.

(** A root that holds one subdirectory, which holds one file. *)
Definition one_subdir : fsobject :=
  Directory true [("sub", Directory true [("f.txt", Regular (Some 12))])].

(** A directory listed out of order: a file, a directory, a file with a
    capital. *)
Definition mixed_dir : fsobject :=
  Directory true [("a_file.txt", Regular (Some 3));
                  ("z_dir", Directory true [("notes.md", Regular (Some 7))]);
                  ("B.txt", Regular None)].

(** A root whose own name is hidden. *)
Definition hidden_root_path : Path := ["project"; ".git"].
Definition hidden_root : fsobject :=
  Directory true [("config", Regular (Some 92)); (".lock", Regular (Some 0))].

(** Two listings of one directory whose two files have names that differ
    by case only. *)
Definition case_twins : fsobject :=
  Directory true [("README", Regular (Some 1)); ("readme", Regular (Some 2))].
Definition case_twins_relisted : fsobject :=
  Directory true [("readme", Regular (Some 2)); ("README", Regular (Some 1))].

(** The node [build_tree] gives for [notes.md] in [mixed_dir]. *)
Definition notes_node : TreeNode :=
  {| path := ["project"; "z_dir"; "notes.md"]; name := "notes.md";
     is_dir := false; size := 7; children := [] |}.

(** The configuration of [--no-gitignore --ignore '*.tmp']. *)
Definition no_gitignore_config : Config :=
  {| root_path := ["project"]; max_depth := None; show_hidden := false;
     use_icons := false; show_size := false; color_output := true;
     respect_gitignore := false;
     custom_ignore_patterns := ["*.tmp"]; force_include_patterns := [] |}.

(** 1023 letters followed by the two bytes of one character (C3 A9). *)
Definition cut_bytes : list ascii :=
  replicate 1023 "a"%char ++ [ascii_of_N 195; ascii_of_N 169].

(** A directory of mode 0444 that holds one file: it can be listed, and
    examining the file raises [PermissionError]. *)
Definition unsearchable_dir : fsobject :=
  Directory false [("x.txt", Regular (Some 5))].

(** A rule file of 8209 bytes: two rules, a comment of 8192 characters
    that runs into the second chunk, and there the byte FF, which is not
    UTF-8. *)
Definition long_rule_bytes : list ascii :=
  String.list_ascii_of_string ("*.log" +:+ LF +:+ "!keep.log" +:+ LF)
  ++ replicate (Z.to_nat 8192) "#"%char ++ [ascii_of_N 255].

(** The same two rules with the byte FF right after them: 17 bytes, one
    chunk. *)
Definition short_rule_bytes : list ascii :=
  String.list_ascii_of_string ("*.log" +:+ LF +:+ "!keep.log" +:+ LF)
  ++ [ascii_of_N 255].

(** A project whose only rule file holds [long_rule_bytes]. *)
Definition long_rulefs : rulefs :=
  {| gi_exists := λ p, bool_decide (p = ["project"; ".gitignore"]);
     gi_read := λ _, open_text long_rule_bytes |}.

(** A directory with two log files, and the node of the one that the
    override rule of [log_processor] keeps. *)
Definition logs_dir : fsobject :=
  Directory true [("debug.log", Regular None); ("important.log", Regular None)].
Definition important_node : TreeNode :=
  {| path := ["project"; "important.log"]; name := "important.log";
     is_dir := false; size := 0; children := [] |}.

(** * Properties *)

(** ** The pattern language *)

Module FnmatchFacts.
Import Fnmatch.

Lemma until_close_length p stuff rest :
  until_close p = Some (stuff, rest) → (length rest < length p)%nat.
Proof.
  revert stuff rest. induction p as [|c p IH]; intros stuff rest; simpl; [done|].
  destruct (Ascii.eqb c "]").
  - intros [= <- <-]. lia.
  - destruct (until_close p) as [[stuff' rest']|]; simpl; [|done].
    intros [= <- <-]. specialize (IH _ _ eq_refl). lia.
Qed.

Lemma bracket_close_length p stuff rest :
  bracket_close p = Some (stuff, rest) → (length rest < S (length p))%nat.
Proof.
  unfold bracket_close.
  destruct p as [|c1 p1]; simpl; [done|].
  destruct (Ascii.eqb c1 "!").
  - destruct p1 as [|c2 p2]; simpl; [done|].
    destruct (Ascii.eqb c2 "]").
    + destruct (until_close p2) as [[s r]|] eqn:E; simpl; [|done].
      intros [= <- <-]. apply until_close_length in E. lia.
    + destruct (until_close (c2 :: p2)) as [[s r]|] eqn:E; simpl; [|done].
      intros [= <- <-]. apply until_close_length in E. simpl in E. lia.
  - destruct (Ascii.eqb c1 "]").
    + destruct (until_close p1) as [[s r]|] eqn:E; simpl; [|done].
      intros [= <- <-]. apply until_close_length in E. lia.
    + destruct (until_close (c1 :: p1)) as [[s r]|] eqn:E; simpl; [|done].
      intros [= <- <-]. apply until_close_length in E. simpl in E. lia.
Qed.

(** [translate] never runs out of fuel: any amount from the length of
    the pattern on gives the same items. *)
Lemma translate_aux_fuel fuel pat :
  (length pat ≤ fuel)%nat → translate_aux fuel pat = translate pat.
Proof.
  unfold translate.
  remember (length pat) as n eqn:Hn.
  assert (Hle : (length pat ≤ n)%nat) by lia. clear Hn.
  revert fuel pat Hle.
  induction n as [|n IH]; intros fuel pat Hlen Hfuel.
  - destruct pat; [|simpl in Hlen; lia]. by destruct fuel.
  - destruct pat as [|c p]; [by destruct fuel|].
    destruct fuel as [|fuel]; [simpl in Hfuel; lia|].
    simpl in Hlen, Hfuel. simpl.
    assert (Hp : translate_aux fuel p = translate_aux n p)
      by (apply IH; lia).
    rewrite Hp.
    destruct (bracket_close p) as [[stuff rest]|] eqn:E; [|done].
    apply bracket_close_length in E.
    assert (Hr : translate_aux fuel rest = translate_aux n rest)
      by (apply IH; lia).
    by rewrite Hr.
Qed.

(** The wildcards on a few names: [*] takes any run of characters, the
  separator included; [?] takes one character; a bracket takes one
  character of its set; the comparison keeps the case. *)
Example fnmatch_star : fnmatch "debug.log" "*.log" = true.
Proof. reflexivity. Qed.
Example fnmatch_star_slash : fnmatch "a/b/c.log" "a/*.log" = true.
Proof. reflexivity. Qed.
Example fnmatch_question : fnmatch "a1" "a?" = true ∧ fnmatch "a" "a?" = false.
Proof. split; reflexivity. Qed.
Example fnmatch_range : fnmatch "b" "[a-c]" = true ∧ fnmatch "d" "[a-c]" = false.
Proof. split; reflexivity. Qed.
Example fnmatch_negated : fnmatch "d" "[!a-c]" = true ∧ fnmatch "b" "[!a-c]" = false.
Proof. split; reflexivity. Qed.
Example fnmatch_open_bracket : fnmatch "[x" "[x" = true.
Proof. reflexivity. Qed.
Example fnmatch_case : fnmatch "Test.TXT" "*.txt" = false.
Proof. reflexivity. Qed.
Example fnmatch_whole_name : fnmatch "src/config.json" "config.json" = false.
Proof. reflexivity. Qed.

End FnmatchFacts.

(** ** PatternMatcher *)

(** C1. [matches_pattern p s d] runs four branches in order. (1) When [s]
    ends with ['/'] it matches only if [d] holds, and the trailing ['/'] is
    dropped before the rest. On the pattern [t] so obtained: (2) when [t]
    starts with ['/'], that ['/'] is dropped and the whole of [p] is matched
    against the remainder; (3) else when [t] contains a ['/'], the whole of
    [p] is matched against [t]; (4) else [p] is split on ['/'] and the
    result is true iff some segment matches [t]. *)
Theorem matches_pattern_branches (p s : string) (d : bool) :
  let t := if PyStr.endswith s "/" then PyStr.drop_last s else s in
  (PyStr.endswith s "/" = true → d = false → matches_pattern p s d = false) ∧
  ((PyStr.endswith s "/" = true → d = true) →
   (PyStr.startswith t "/" = true →
      matches_pattern p s d = Fnmatch.fnmatch p (PyStr.drop_first t)) ∧
   (PyStr.startswith t "/" = false → PyStr.contains "/" t = true →
      matches_pattern p s d = Fnmatch.fnmatch p t) ∧
   (PyStr.startswith t "/" = false → PyStr.contains "/" t = false →
      (matches_pattern p s d = true ↔
       ∃ segment, segment ∈ PyStr.split "/" p ∧ Fnmatch.fnmatch segment t = true))).
Proof.
  unfold matches_pattern. cbv zeta.
  destruct (PyStr.endswith s "/") eqn:Hend; destruct d; cbn [negb].
  all: split; [intros; try done|intros Hd; try (specialize (Hd eq_refl); done)].
  all: split; [by intros ->|split; [by intros -> ->|intros -> ->]].
  all: rewrite existsb_exists; setoid_rewrite list_elem_of_In; done.
Qed.

Lemma matches_pattern_branches_witness :
  matches_pattern "config.json" "/config.json/" true
  = Fnmatch.fnmatch "config.json" "config.json".
Proof.
  destruct (matches_pattern_branches "config.json" "/config.json/" true) as [_ H].
  destruct H as [H _]; [reflexivity|].
  apply H. reflexivity.
Defined.

(** When the pattern neither ends nor starts with ['/'], a ['/'] it contains
    is an inner one. *)
Lemma contains_inner_slash (s : string) :
  PyStr.endswith s "/" = false → PyStr.startswith s "/" = false →
  PyStr.contains "/" s = true →
  ∃ a b, s = a +:+ "/" +:+ b ∧ a ≠ "" ∧ b ≠ "".
Proof.
  assert (Hsplit : ∀ u, PyStr.contains "/" u = true → ∃ a b, u = a +:+ "/" +:+ b).
  { induction u as [|c u IH]; simpl; [done|].
    destruct (Ascii.eqb_spec c "/") as [->|Hc]; simpl.
    - intros _. by exists "", u.
    - intros (a & b & ->)%IH. by exists (String c a), b. }
  assert (Hends : ∀ a, PyStr.endswith (a +:+ "/") "/" = true).
  { induction a as [|c a IH]; [done|].
    change (String c a +:+ "/") with (String c (a +:+ "/")).
    simpl. rewrite IH. apply orb_true_r. }
  intros Hend Hstart (a & b & ->)%Hsplit.
  exists a, b. split; [done|]. split.
  - intros ->. change ("" +:+ "/" +:+ b) with (String "/" b) in Hstart. done.
  - intros ->. by rewrite Hends in Hend.
Qed.

(** C2, the row of the table the code breaks: [*] of [fnmatch] runs over
    ['/'], so ['src/*.py'] matches ['src/nested/test.py']. *)
Theorem matches_pattern_star_crosses_slash :
  matches_pattern "src/nested/test.py" "src/*.py" false = true.
Proof. vm_compute. reflexivity. Qed.

(** The other rows of the table hold. *)
Lemma matches_pattern_table :
  matches_pattern "build" "build/" true = true ∧
  matches_pattern "build" "build/" false = false ∧
  matches_pattern "config.json" "/config.json" false = true ∧
  matches_pattern "src/config.json" "/config.json" false = false ∧
  matches_pattern "src/test.py" "src/*.py" false = true ∧
  matches_pattern "test.py" "src/*.py" false = false ∧
  (∀ p d, "node_modules" ∈ PyStr.split "/" p →
          matches_pattern p "node_modules" d = true).
Proof.
  repeat split; try (vm_compute; reflexivity).
  intros p d Hin.
  change (matches_pattern p "node_modules" d)
    with (existsb (λ part, Fnmatch.fnmatch part "node_modules") (PyStr.split "/" p)).
  apply existsb_exists. exists "node_modules". by rewrite <-list_elem_of_In.
Qed.

(** ** FilterPolicy *)

Section filter_policy.
Variable set_iter : gset string → list string.
Hypothesis set_iter_order : iteration_order set_iter.

(** A loop over a set finds a match iff the set holds one. *)
Lemma existsb_set_iter (f : string → bool) (s : gset string) :
  existsb f (set_iter s) = true ↔ ∃ x, x ∈ s ∧ f x = true.
Proof.
  rewrite existsb_exists. setoid_rewrite <-list_elem_of_In.
  split; intros (x & Hx & Hf); exists x; (split; [|done]).
  - apply elem_of_elements. by rewrite <-(set_iter_order s).
  - rewrite (set_iter_order s). by apply elem_of_elements.
Qed.

Lemma existsb_set_iter_false (f : string → bool) (s : gset string) :
  existsb f (set_iter s) = false ↔ ¬ ∃ x, x ∈ s ∧ f x = true.
Proof. rewrite <-existsb_set_iter. by destruct (existsb f (set_iter s)). Qed.

(** C3. For an entry that the hidden-file suppression leaves alone,
    [should_ignore] is false as soon as some rule of the override
    (include) set matches, whatever the ignore set says; it is true when
    no override rule matches and some ignore rule does; it is false when
    no rule of either set matches. *)
Theorem should_ignore_override_precedence
    (self : TreeProcessor) (path : Path) (path_is_dir : bool) (relative_path : string) :
  show_hidden (config self) = true ∨ PyStr.startswith (Path_name path) "." = false →
  (rule_matches (include_patterns self) relative_path path_is_dir →
     should_ignore set_iter self path path_is_dir relative_path = false) ∧
  (¬ rule_matches (include_patterns self) relative_path path_is_dir →
   rule_matches (ignore_patterns self) relative_path path_is_dir →
     should_ignore set_iter self path path_is_dir relative_path = true) ∧
  (¬ rule_matches (include_patterns self) relative_path path_is_dir →
   ¬ rule_matches (ignore_patterns self) relative_path path_is_dir →
     should_ignore set_iter self path path_is_dir relative_path = false).
Proof.
  intros Hvisible. unfold should_ignore, rule_matches.
  assert (negb (show_hidden (config self))
          && PyStr.startswith (Path_name path) "." = false) as ->.
  { destruct Hvisible as [-> | ->]; [done|apply andb_false_r]. }
  repeat split.
  - intros Hinc%existsb_set_iter. by rewrite Hinc.
  - intros Hinc%existsb_set_iter_false Hign%existsb_set_iter.
    by rewrite Hinc, Hign.
  - intros Hinc%existsb_set_iter_false Hign%existsb_set_iter_false.
    by rewrite Hinc, Hign.
Qed.

End filter_policy.

Lemma elements_order : iteration_order elements.
Proof. by intros s. Qed.

Lemma should_ignore_override_precedence_witness :
  should_ignore elements (log_processor false)
    ["project"; "important.log"] false "important.log" = false.
Proof.
  refine (proj1 (should_ignore_override_precedence elements elements_order
                   (log_processor false) ["project"; "important.log"] false
                   "important.log" _) _).
  - right. reflexivity.
  - exists "important.log". split; [|vm_compute; reflexivity].
    apply elem_of_union_l, elem_of_singleton. reflexivity.
Defined.

(** C4. With show-hidden off, an entry whose base name starts with ['.'] is
    hidden whatever the ignore and override sets hold: the test on the name
    comes before any rule is looked at. *)
Theorem should_ignore_hidden_first
    (set_iter : gset string → list string)
    (self : TreeProcessor) (path : Path) (path_is_dir : bool) (relative_path : string) :
  show_hidden (config self) = false →
  PyStr.startswith (Path_name path) "." = true →
  should_ignore set_iter self path path_is_dir relative_path = true.
Proof. intros Hcfg Hname. unfold should_ignore. by rewrite Hcfg, Hname. Qed.

Lemma should_ignore_hidden_first_witness :
  matches_pattern ".env" ".env*" false = true ∧
  should_ignore elements (log_processor false) ["project"; ".env"] false ".env" = true.
Proof.
  split; [vm_compute; reflexivity|].
  apply (should_ignore_hidden_first elements (log_processor false)
           ["project"; ".env"] false ".env"); reflexivity.
Defined.

(** ** RuleSetLoader *)

Lemma foldl_load_patterns (fs : rulefs) (files : list Path) (self : TreeProcessor) :
  let loaded :=
    foldl (λ self gitignore_file,
             let '(ignore_pats, include_pats) := parse_gitignore (gi_read fs gitignore_file) in
             {| config := config self;
                ignore_patterns := ignore_patterns self ∪ list_to_set ignore_pats;
                include_patterns := include_patterns self ∪ list_to_set include_pats |})
          self files in
  config loaded = config self ∧
  ignore_patterns loaded
  = ignore_patterns self
    ∪ ⋃ (map (λ f, list_to_set (parse_gitignore (gi_read fs f)).1) files) ∧
  include_patterns loaded
  = include_patterns self
    ∪ ⋃ (map (λ f, list_to_set (parse_gitignore (gi_read fs f)).2) files).
Proof.
  revert self. induction files as [|f files IH]; intros self; simpl.
  - split; [done|]. split; by rewrite (right_id_L ∅ (∪)).
  - destruct (IH
      (let '(ignore_pats, include_pats) := parse_gitignore (gi_read fs f) in
       {| config := config self;
          ignore_patterns := ignore_patterns self ∪ list_to_set ignore_pats;
          include_patterns := include_patterns self ∪ list_to_set include_pats |}))
      as (Hc & Hi & Hn).
    rewrite Hc, Hi, Hn.
    destruct (parse_gitignore (gi_read fs f)) as [ig inc]; simpl.
    split; [done|]. split; by rewrite (assoc_L (∪)).
Qed.

(** With [respect_gitignore] on, loading goes through every discovered
    file, whatever reading it did: the merged sets are the unions of what
    [parse_gitignore] returned for each of them, and the custom rules. *)
Lemma load_ignore_patterns_enabled (fs : rulefs) (self : TreeProcessor) :
  respect_gitignore (config self) = true →
  let files := find_gitignore_files (gi_exists fs) (get_root_path (config self)) in
  let loaded := _load_ignore_patterns fs self in
  ignore_patterns loaded
  = ignore_patterns self
    ∪ ⋃ (map (λ f, list_to_set (parse_gitignore (gi_read fs f)).1) files)
    ∪ list_to_set (custom_ignore_patterns (config self)) ∧
  include_patterns loaded
  = include_patterns self
    ∪ ⋃ (map (λ f, list_to_set (parse_gitignore (gi_read fs f)).2) files)
    ∪ list_to_set (force_include_patterns (config self)).
Proof.
  intros Hrespect files loaded. subst loaded files.
  unfold _load_ignore_patterns. rewrite Hrespect. cbn [negb].
  destruct (foldl_load_patterns fs
              (find_gitignore_files (gi_exists fs) (get_root_path (config self))) self)
    as (Hc & Hi & Hn).
  cbv zeta in Hc, Hi, Hn. cbn [ignore_patterns include_patterns].
  by rewrite Hc, Hi, Hn.
Qed.

(** The decoder of the text layer agrees with [bytes.decode]: what is
    valid UTF-8 as a whole decodes, in one chunk, to all of its
    characters, and leaves the decoder between two characters. *)
Lemma utf8_decode_from (bytes : list ascii) :
  ∀ need lo hi kept,
    (need = 0%nat → lo = 128%N ∧ hi = 191%N ∧ kept = []) →
    utf8_from need lo hi bytes = true →
    utf8_decode (need, lo, hi) kept bytes = Some (kept ++ bytes, (utf8_start, [])).
Proof.
  induction bytes as [|b bytes IH]; intros need lo hi kept Hstart Hvalid.
  - destruct need; [|done]. destruct Hstart as (-> & -> & ->); done.
  - cbn [utf8_from] in Hvalid. cbn [utf8_decode utf8_step].
    destruct need as [|need].
    + destruct Hstart as (_ & _ & ->); [done|].
      repeat match type of Hvalid with
             | (if ?c then _ else _) = true => destruct c
             end; try done;
        cbn [utf8_complete];
        first [ by rewrite (IH _ _ _ [] (λ _, conj eq_refl (conj eq_refl eq_refl)) Hvalid)
              | by rewrite (IH _ _ _ [b]) by done ].
    + apply andb_prop in Hvalid as [-> Hvalid].
      destruct need as [|need]; cbn [utf8_complete].
      * by rewrite (IH _ _ _ [] (λ _, conj eq_refl (conj eq_refl eq_refl)) Hvalid).
      * rewrite (IH _ _ _ (kept ++ [b])) by done. by rewrite <-(assoc_L (++)).
Qed.

Lemma utf8_decode_valid (bytes : list ascii) :
  utf8_valid bytes = true →
  utf8_decode utf8_start [] bytes = Some (bytes, (utf8_start, [])).
Proof. intros Hvalid. by apply (utf8_decode_from bytes 0 128 191 []). Qed.

(** C6, the code at the failing input. [long_rule_bytes] is a rule file
    whose reading fails part-way: its second chunk does not decode. The
    two lines of the first chunk were given to the loop before that,
    their rules are in the two lists when [except Exception: pass] is
    reached, and [parse_gitignore] returns them. The file contributes an
    ignore rule and an override rule to the merged sets, where the claim
    has none. With the same byte in the first chunk ([short_rule_bytes])
    no line is given to the loop and the file contributes nothing. *)
Theorem parse_gitignore_keeps_rules_of_earlier_chunks :
  open_text long_rule_bytes = Reads ["*.log" +:+ LF; "!keep.log" +:+ LF] Raised ∧
  parse_gitignore (open_text long_rule_bytes) = (["*.log"], ["keep.log"]) ∧
  "*.log" ∈ ignore_patterns (TreeProcessor_init long_rulefs (plain_config None)) ∧
  "keep.log" ∈ include_patterns (TreeProcessor_init long_rulefs (plain_config None)) ∧
  open_text short_rule_bytes = Reads [] Raised ∧
  parse_gitignore (open_text short_rule_bytes) = ([], []).
Proof.
  split; [vm_compute; reflexivity|]. split; [vm_compute; reflexivity|].
  split; [apply (bool_decide_unpack _); vm_compute; exact I|].
  split; [apply (bool_decide_unpack _); vm_compute; exact I|].
  split; vm_compute; reflexivity.
Qed.

(** With [respect_gitignore] off, [_load_ignore_patterns] returns before the
    custom rules are added: the sets stay as they were. *)
Lemma load_ignore_patterns_disabled (fs : rulefs) (self : TreeProcessor) :
  respect_gitignore (config self) = false → _load_ignore_patterns fs self = self.
Proof. intros H. unfold _load_ignore_patterns. by rewrite H. Qed.

(** ** [sorted] *)

Section sorted_facts.
Context {A K : Type} (key : A → K) (lt : K → K → bool) (le : K → K → Prop).
Context `{!Transitive le}.
Hypothesis lt_le : ∀ a b, lt a b = true → le a b.
Hypothesis ge_le : ∀ a b, lt a b = false → le b a.

Lemma insert_by_perm (x : A) (l : list A) : insert_by key lt x l ≡ₚ x :: l.
Proof.
  induction l as [|y l IH]; simpl; [done|].
  destruct (lt (key y) (key x)); [|done].
  rewrite IH. apply Permutation_swap.
Qed.

Lemma sorted_perm (l : list A) : sorted key lt l ≡ₚ l.
Proof.
  induction l as [|x l IH]; simpl; [done|].
  by rewrite insert_by_perm, IH.
Qed.

Lemma insert_by_sorted (x : A) (l : list A) :
  StronglySorted (λ a b, le (key a) (key b)) l →
  StronglySorted (λ a b, le (key a) (key b)) (insert_by key lt x l).
Proof.
  induction l as [|y l IH]; simpl; intros Hl.
  - repeat constructor.
  - apply StronglySorted_cons in Hl as [Hy Hl].
    destruct (lt (key y) (key x)) eqn:Hyx.
    + apply StronglySorted_cons. split; [|by apply IH].
      rewrite insert_by_perm. constructor; [by apply lt_le|done].
    + apply StronglySorted_cons. split.
      * constructor; [by apply ge_le|].
        eapply Forall_impl; [exact Hy|]. intros z Hz. simpl in Hz.
        etrans; [by apply ge_le|done].
      * by apply StronglySorted_cons.
Qed.

Lemma sorted_sorted (l : list A) :
  StronglySorted (λ a b, le (key a) (key b)) (sorted key lt l).
Proof.
  induction l as [|x l IH]; simpl; [constructor|by apply insert_by_sorted].
Qed.
End sorted_facts.

Lemma string_ltb_le (s1 s2 : string) : String.ltb s1 s2 = true → String.le s1 s2.
Proof.
  unfold String.le, String.leb, String.ltb.
  by destruct (String.compare s1 s2).
Qed.

Lemma string_ltb_ge (s1 s2 : string) : String.ltb s1 s2 = false → String.le s2 s1.
Proof.
  unfold String.le, String.leb, String.ltb.
  rewrite (String.compare_antisym s1 s2).
  by destruct (String.compare s2 s1).
Qed.

Global Instance key_le_trans : Transitive key_le.
Proof.
  intros [b1 s1] [b2 s2] [b3 s3]; unfold key_le; simpl.
  intros [[-> ->]|[-> H12]] [[? ->]|[-> H23]]; try done; try (by left).
  right. split; [done|]. by etrans.
Qed.

Lemma key_lt_le (k1 k2 : bool * string) : key_lt k1 k2 = true → key_le k1 k2.
Proof.
  destruct k1 as [b1 s1], k2 as [b2 s2]. unfold key_lt, key_le. simpl.
  case_bool_decide as Hb.
  - intros H%string_ltb_le. by right.
  - destruct b1, b2; try done. by left.
Qed.

Lemma key_lt_ge (k1 k2 : bool * string) : key_lt k1 k2 = false → key_le k2 k1.
Proof.
  destruct k1 as [b1 s1], k2 as [b2 s2]. unfold key_lt, key_le. simpl.
  case_bool_decide as Hb.
  - intros H%string_ltb_ge. by right.
  - destruct b1, b2; try done. by left.
Qed.

(** ** TreeBuilder *)

(** Induction on what the filesystem holds, with the hypothesis for every
    listed child of a directory. *)
Lemma fsobject_nested_ind (P : fsobject → Prop) :
  P Absent → (∀ st_size, P (Regular st_size)) → P Special →
  (∀ readable entries,
     Forall (λ entry : string * fsobject, P entry.2) entries →
     P (Directory readable entries)) →
  ∀ obj, P obj.
Proof.
  intros HA HR HS HD. fix IH 1. intros [|st_size| |readable entries]; [done..|].
  apply HD. induction entries as [|[child_name child] entries IHe]; constructor.
  - apply IH.
  - exact IHe.
Qed.

Lemma descendants_children (t : TreeNode) :
  descendants t = flat_map (λ child, child :: descendants child) (children t).
Proof.
  destruct t as [p n d s cs]. simpl.
  induction cs as [|c cs IH]; [done|]. simpl. by rewrite IH.
Qed.

Lemma omap_all_None {A B : Type} (f : A → option B) (l : list A) :
  Forall (λ x, f x = None) l → omap f l = [].
Proof. induction 1 as [|x l Hx _ IH]; simpl; [done|]. by rewrite Hx. Qed.

Lemma StronglySorted_omap {A B : Type} (R : relation A) (R' : relation B)
    (f : A → option B) (l : list A) :
  (∀ x y x' y', x ∈ l → y ∈ l → f x = Some x' → f y = Some y' → R x y → R' x' y') →
  StronglySorted R l → StronglySorted R' (omap f l).
Proof.
  intros HR Hl. induction Hl as [|x l Hl IH Hx]; simpl; [constructor|].
  assert (IH' : StronglySorted R' (omap f l)).
  { apply IH. intros ???? ??. apply HR; by apply list_elem_of_further. }
  destruct (f x) as [x'|] eqn:Hfx; [|done].
  apply StronglySorted_cons. split; [|done].
  apply Forall_forall. intros y' (y & Hy & Hfy)%list_elem_of_omap.
  apply (HR x y); [apply list_elem_of_here|by apply list_elem_of_further|done..|].
  rewrite Forall_forall in Hx. by apply Hx.
Qed.

Section tree_builder.
Variable set_iter : gset string → list string.

Lemma build_tree_Directory self root_path readable entries current_depth :
  build_tree set_iter self root_path (Directory readable entries) current_depth
  = if too_deep self current_depth then None
    else Some {| path := root_path; name := Path_name root_path;
                 is_dir := true; size := 0;
                 children :=
                   if readable
                   then omap (visit_child set_iter self)
                          (sorted child_key key_lt
                             (listed_children set_iter self root_path entries current_depth))
                   else [] |}.
Proof. simpl. by destruct (too_deep self current_depth), readable. Qed.

(** [build_tree] is absent exactly for a path that does not exist or a
    depth over the maximum. *)
Lemma build_tree_None self root_path obj current_depth :
  build_tree set_iter self root_path obj current_depth = None
  ↔ fs_exists obj = false ∨ too_deep self current_depth = true.
Proof.
  destruct obj as [|st_size| |readable entries]; simpl;
    destruct (too_deep self current_depth); try destruct readable;
    intuition congruence.
Qed.

(** The node built for a path describes that path. *)
Lemma build_tree_node self root_path obj current_depth n :
  build_tree set_iter self root_path obj current_depth = Some n →
  path n = root_path ∧ name n = Path_name root_path ∧ is_dir n = fs_is_dir obj
  ∧ size n = (if fs_is_file obj then get_file_size obj else 0).
Proof.
  destruct obj as [|st_size| |readable entries]; simpl;
    destruct (too_deep self current_depth); try destruct readable;
    intros [= <-]; done.
Qed.

Lemma build_tree_leaf self root_path obj current_depth n :
  fs_is_dir obj = false →
  build_tree set_iter self root_path obj current_depth = Some n →
  children n = [].
Proof.
  destruct obj as [|st_size| |readable entries]; simpl; [| | |done];
    destruct (too_deep self current_depth); intros _ [= <-]; done.
Qed.

Lemma listing_elem_of self root_path entries current_depth listed :
  listed ∈ sorted child_key key_lt (listed_children set_iter self root_path entries current_depth) →
  ∃ entry, entry ∈ entries
    ∧ listed = (Path_div root_path entry.1, entry.2,
                build_tree set_iter self (Path_div root_path entry.1) entry.2
                  (current_depth + 1)).
Proof.
  rewrite sorted_perm. unfold listed_children.
  intros (entry & <- & Hin)%list_elem_of_In%in_map_iff.
  exists entry. by rewrite list_elem_of_In.
Qed.

(** Every child node comes from a listed entry that the filter let
    through, and is what the recursive call built for it. *)
Lemma build_tree_children self root_path readable entries current_depth t n :
  build_tree set_iter self root_path (Directory readable entries) current_depth = Some t →
  n ∈ children t →
  ∃ entry, entry ∈ entries
    ∧ build_tree set_iter self (Path_div root_path entry.1) entry.2
        (current_depth + 1) = Some n
    ∧ should_ignore set_iter self (Path_div root_path entry.1) (fs_is_dir entry.2)
        (relative_path_of self (Path_div root_path entry.1)) = false.
Proof.
  rewrite build_tree_Directory.
  destruct (too_deep self current_depth); [done|]. intros [= <-]. simpl.
  destruct readable; [|by intros ?%elem_of_nil].
  intros (listed & Hin & Hvisit)%list_elem_of_omap.
  apply listing_elem_of in Hin as (entry & Hentry & ->).
  exists entry. split; [done|]. unfold visit_child in Hvisit.
  by destruct (should_ignore set_iter self _ _ _).
Qed.

(** Past the maximum depth, nothing is built. *)
Lemma build_tree_too_deep self root_path obj current_depth :
  too_deep self current_depth = true →
  build_tree set_iter self root_path obj current_depth = None.
Proof. intros H. apply build_tree_None. by right. Qed.

(** A directory at the maximum depth has no children: each of them is
    one level too deep. *)
Lemma children_cut self root_path entries current_depth :
  too_deep self (current_depth + 1) = true →
  omap (visit_child set_iter self)
    (sorted child_key key_lt (listed_children set_iter self root_path entries current_depth)) = [].
Proof.
  intros Hdeep. apply omap_all_None, Forall_forall.
  intros listed (entry & _ & ->)%listing_elem_of. unfold visit_child.
  rewrite build_tree_too_deep by done.
  by destruct (should_ignore set_iter self _ _ _).
Qed.

End tree_builder.

(** C5, refuted as stated: with [max_depth = 0] over a root that holds one
    subdirectory with a file in it, the subdirectory is at depth 1, its
    build is absent, and no node for it is among the root's children. *)
Lemma max_depth_zero_cuts_subdirectory :
  ¬ ∃ root sub,
      build_tree elements (plain_processor (Some 0)) ["project"] one_subdir 0 = Some root
      ∧ sub ∈ children root ∧ name sub = "sub" ∧ children sub = [].
Proof.
  intros (root & sub & Hroot & Hsub & _).
  vm_compute in Hroot. injection Hroot as <-. simpl in Hsub.
  by apply elem_of_nil in Hsub.
Qed.

(** C5, amended. With [max_depth = 0] the tree of a root directory is the
    root node alone: its children sequence is empty, the subdirectory being
    one level too deep. The subdirectory node with an empty children
    sequence is what [max_depth = 1] gives, when the filter lets the
    subdirectory through. *)
Theorem max_depth_cuts_below
    (set_iter : gset string → list string) (self : TreeProcessor)
    (root_path : Path) (sub_name : string) (readable : bool)
    (entries : list (string * fsobject)) :
  let root_obj := Directory true [(sub_name, Directory readable entries)] in
  (max_depth (config self) = Some 0 →
   ∃ root, build_tree set_iter self root_path root_obj 0 = Some root
           ∧ children root = []) ∧
  (max_depth (config self) = Some 1 →
   should_ignore set_iter self (Path_div root_path sub_name) true
     (relative_path_of self (Path_div root_path sub_name)) = false →
   ∃ root sub, build_tree set_iter self root_path root_obj 0 = Some root
               ∧ children root = [sub]
               ∧ name sub = sub_name ∧ is_dir sub = true ∧ children sub = []).
Proof.
  intros root_obj. subst root_obj.
  assert (Hdeep : ∀ m d, max_depth (config self) = Some m →
                         too_deep self d = bool_decide (d > m)).
  { intros m d Hm. unfold too_deep. by rewrite Hm. }
  split.
  - intros Hmax. rewrite build_tree_Directory, (Hdeep 0 0 Hmax).
    rewrite bool_decide_eq_false_2 by lia.
    eexists. split; [reflexivity|]. cbn [children].
    apply children_cut. rewrite (Hdeep 0 _ Hmax). apply bool_decide_eq_true. lia.
  - intros Hmax Hkeep. rewrite build_tree_Directory, (Hdeep 1 0 Hmax).
    rewrite bool_decide_eq_false_2 by lia.
    cbn -[build_tree should_ignore relative_path_of too_deep Path_div Path_name].
    rewrite Hkeep.
    rewrite build_tree_Directory, (Hdeep 1 (0 + 1) Hmax).
    rewrite bool_decide_eq_false_2 by lia.
    eexists. eexists. split; [reflexivity|]. cbn [children name is_dir].
    split; [reflexivity|]. split; [|split; [done|]].
    + unfold Path_name, Path_div. apply last_last.
    + destruct readable; [|done].
      apply children_cut. rewrite (Hdeep 1 _ Hmax). apply bool_decide_eq_true. lia.
Qed.

Lemma max_depth_cuts_below_witness :
  ∃ root sub,
    build_tree elements (plain_processor (Some 1)) ["project"] one_subdir 0 = Some root
    ∧ children root = [sub]
    ∧ name sub = "sub" ∧ is_dir sub = true ∧ children sub = [].
Proof.
  apply (max_depth_cuts_below elements (plain_processor (Some 1)) ["project"] "sub" true
           [("f.txt", Regular (Some 12))]); reflexivity.
Defined.

(** C10. With a negative [max_depth], [build_tree(path, 0)] is absent for
    every path, whatever the filesystem holds there, and [generate_tree]
    returns the one line "Error: Could not access <root>". *)
Theorem negative_max_depth_builds_nothing
    (set_iter : gset string → list string)
    (get_file_icon : Path → string) (format_file_size : Z → string)
    (self : TreeProcessor) (m : Z) (some_path : Path) (obj root_obj : fsobject) :
  max_depth (config self) = Some m → m < 0 →
  build_tree set_iter self some_path obj 0 = None ∧
  generate_tree set_iter get_file_icon format_file_size self root_obj
  = ["Error: Could not access " +:+ Path_str (get_root_path (config self))].
Proof.
  intros Hmax Hneg.
  assert (Hdeep : too_deep self 0 = true).
  { unfold too_deep. rewrite Hmax. apply bool_decide_eq_true. lia. }
  split; [by apply build_tree_too_deep|].
  unfold generate_tree. by rewrite build_tree_too_deep.
Qed.

Lemma negative_max_depth_builds_nothing_witness :
  build_tree elements (plain_processor (Some (-1))) ["project"] one_subdir 0 = None ∧
  generate_tree elements (λ _, "") (λ _, "") (plain_processor (Some (-1))) one_subdir
  = ["Error: Could not access /project"].
Proof.
  apply (negative_max_depth_builds_nothing elements (λ _, "") (λ _, "")
           (plain_processor (Some (-1))) (-1) ["project"] one_subdir one_subdir);
    [reflexivity|lia].
Defined.

(** The key order in the words of the invariant: no entry that is not a
    directory comes before a directory, and two entries of the same kind
    are in the order of their lower-cased names. *)
Lemma key_le_sort_key (a b : TreeNode) :
  key_le (sort_key a) (sort_key b)
  ↔ (is_dir b = true → is_dir a = true)
    ∧ (is_dir a = is_dir b → String.le (PyStr.lower (name a)) (PyStr.lower (name b))).
Proof.
  unfold key_le, sort_key. simpl.
  destruct (is_dir a), (is_dir b); simpl; intuition congruence.
Qed.

Section tree_invariants.
Variable set_iter : gset string → list string.

(** A node built for a listed child carries the key the listing was
    sorted by. *)
Lemma visit_child_key self root_path entries current_depth listed n :
  listed ∈ sorted child_key key_lt
             (listed_children set_iter self root_path entries current_depth) →
  visit_child set_iter self listed = Some n →
  sort_key n = child_key listed.
Proof.
  intros (entry & _ & ->)%listing_elem_of. unfold visit_child, child_key, sort_key.
  destruct (should_ignore set_iter self _ _ _); [done|].
  intros (_ & -> & -> & _)%build_tree_node. done.
Qed.

(** C7. In a tree returned by [build_tree] the children of every node are
    sorted by the key (is-file, lower-cased name): the directories come
    before the other entries, and within each group the names are in
    order, compared without case. *)
Theorem build_tree_children_sorted self root_path obj current_depth t :
  build_tree set_iter self root_path obj current_depth = Some t → well_sorted t.
Proof.
  revert root_path current_depth t.
  induction obj as [|st_size| |readable entries IH] using fsobject_nested_ind;
    intros root_path current_depth t Ht.
  1-3: apply build_tree_leaf in Ht; [|done];
       constructor; rewrite Ht; constructor.
  constructor.
  - rewrite build_tree_Directory in Ht.
    destruct (too_deep self current_depth); [done|]. injection Ht as <-.
    cbn [children]. destruct readable; [|constructor].
    eapply StronglySorted_omap;
      [|apply (sorted_sorted child_key key_lt key_le key_lt_le key_lt_ge)].
    intros x y x' y' Hx Hy Hx' Hy' Hxy. cbv beta in Hxy.
    by rewrite (visit_child_key _ _ _ _ _ _ Hx Hx'), (visit_child_key _ _ _ _ _ _ Hy Hy').
  - apply Forall_forall. intros n Hn.
    destruct (build_tree_children _ _ _ _ _ _ _ _ Ht Hn) as (entry & Hentry & Hbuilt & _).
    rewrite Forall_forall in IH. by eapply (IH entry Hentry).
Qed.

(** C8. In a tree returned by [build_tree] every node below the root was
    let through by the filter, asked about that node's path and relative
    path. The root is built without the filter being asked: it is there
    as soon as the path exists and the depth is within the maximum. *)
Theorem build_tree_filters_below_root self root_path obj current_depth :
  (∀ t, build_tree set_iter self root_path obj current_depth = Some t →
        Forall (accepted set_iter self) (descendants t)) ∧
  (fs_exists obj = true → too_deep self current_depth = false →
   ∃ t, build_tree set_iter self root_path obj current_depth = Some t
        ∧ path t = root_path ∧ name t = Path_name root_path
        ∧ is_dir t = fs_is_dir obj).
Proof.
  split.
  - revert root_path current_depth.
    induction obj as [|st_size| |readable entries IH] using fsobject_nested_ind;
      intros root_path current_depth t Ht; rewrite descendants_children.
    1-3: apply build_tree_leaf in Ht; [|done]; rewrite Ht; constructor.
    apply Forall_forall. intros n (child & Hchild & Hn)%list_elem_of_In%in_flat_map.
    apply list_elem_of_In in Hchild.
    destruct (build_tree_children _ _ _ _ _ _ _ _ Ht Hchild)
      as (entry & Hentry & Hbuilt & Hkeep).
    destruct Hn as [<-|Hn].
    + unfold accepted.
      apply build_tree_node in Hbuilt as (-> & _ & -> & _). done.
    + rewrite Forall_forall in IH.
      specialize (IH entry Hentry _ _ _ Hbuilt). rewrite Forall_forall in IH.
      apply IH. by apply list_elem_of_In.
  - intros Hexists Hdepth.
    destruct (build_tree set_iter self root_path obj current_depth) as [t|] eqn:Ht.
    + exists t. split; [done|].
      by apply build_tree_node in Ht as (? & ? & ? & _).
    + apply build_tree_None in Ht as [Ht|Ht]; congruence.
Qed.

End tree_invariants.

Lemma build_tree_children_sorted_witness :
  ∃ t, build_tree elements (plain_processor None) ["project"] mixed_dir 0 = Some t
       ∧ map name (children t) = ["z_dir"; "a_file.txt"; "B.txt"]
       ∧ well_sorted t.
Proof.
  eexists. split; [vm_compute; reflexivity|]. split; [reflexivity|].
  apply (build_tree_children_sorted elements (plain_processor None) ["project"] mixed_dir 0).
  vm_compute. reflexivity.
Defined.

Lemma build_tree_filters_below_root_witness :
  should_ignore elements (plain_processor None) hidden_root_path true ".git" = true ∧
  ∃ t, build_tree elements (plain_processor None) hidden_root_path hidden_root 0 = Some t
       ∧ name t = ".git"
       ∧ Forall (accepted elements (plain_processor None)) (descendants t).
Proof.
  split; [reflexivity|].
  destruct (build_tree_filters_below_root elements (plain_processor None)
              hidden_root_path hidden_root 0) as [Hbelow Hroot].
  destruct (Hroot eq_refl eq_refl) as (t & Ht & _ & Hname & _).
  exists t. split; [exact Ht|]. split; [exact Hname|]. exact (Hbelow t Ht).
Defined.

(** ** Determinism *)

Lemma should_ignore_order_irrelevant
    (iter1 iter2 : gset string → list string) self path path_is_dir relative_path :
  iteration_order iter1 → iteration_order iter2 →
  should_ignore iter1 self path path_is_dir relative_path
  = should_ignore iter2 self path path_is_dir relative_path.
Proof.
  intros H1 H2. unfold should_ignore.
  assert (Hsame : ∀ f s, existsb f (iter1 s) = existsb f (iter2 s)).
  { intros f s. apply eq_true_iff_eq.
    by rewrite (existsb_set_iter iter1 H1), (existsb_set_iter iter2 H2). }
  by rewrite !Hsame.
Qed.

Lemma omap_ext_in {A B : Type} (f g : A → option B) (l : list A) :
  (∀ x, x ∈ l → f x = g x) → omap f l = omap g l.
Proof.
  induction l as [|x l IH]; intros Hfg; csimpl; [done|].
  rewrite (Hfg x) by apply list_elem_of_here.
  rewrite IH; [done|]. intros y Hy. apply Hfg. by apply list_elem_of_further.
Qed.

(** C9. For a fixed configuration, fixed rule sets and a fixed filesystem
    state, two runs of [build_tree] on the same root give the same tree
    (names, is-directory flags, sizes, order of the children at every
    node): the only thing that can differ from one run to the next, the
    order in which the rule sets are iterated, has no effect. *)
Theorem build_tree_deterministic
    (iter1 iter2 : gset string → list string)
    (self : TreeProcessor) (root_path : Path) (obj : fsobject) (current_depth : Z) :
  iteration_order iter1 → iteration_order iter2 →
  build_tree iter1 self root_path obj current_depth
  = build_tree iter2 self root_path obj current_depth.
Proof.
  intros H1 H2. revert root_path current_depth.
  induction obj as [|st_size| |readable entries IH] using fsobject_nested_ind;
    intros root_path current_depth; [done..|].
  rewrite !build_tree_Directory.
  destruct (too_deep self current_depth); [done|].
  destruct readable; [|done]. do 2 f_equal.
  assert (Hlisting :
    listed_children iter1 self root_path entries current_depth
    = listed_children iter2 self root_path entries current_depth).
  { apply map_ext_in. intros entry Hentry%list_elem_of_In.
    rewrite Forall_forall in IH. by rewrite (IH entry Hentry). }
  rewrite Hlisting. apply omap_ext_in.
  intros [[child_path child] child_node] _. unfold visit_child.
  by rewrite (should_ignore_order_irrelevant iter1 iter2).
Qed.

Lemma reverse_elements_order : iteration_order (λ s, reverse (elements s)).
Proof. intros s. apply reverse_Permutation. Qed.

Lemma build_tree_deterministic_witness :
  build_tree elements (log_processor true) ["project"] mixed_dir 0
  = build_tree (λ s, reverse (elements s)) (log_processor true) ["project"] mixed_dir 0.
Proof.
  apply (build_tree_deterministic elements (λ s, reverse (elements s))).
  - exact elements_order.
  - exact reverse_elements_order.
Defined.

(** ** The order of the listings *)

Lemma relisted_Directory readable entries1 o2 :
  relisted (Directory readable entries1) o2
  ↔ ∃ mid entries2,
      o2 = Directory readable entries2
      ∧ Forall2 (λ entry1 entry2 : string * fsobject,
                   entry1.1 = entry2.1 ∧ relisted entry1.2 entry2.2) entries1 mid
      ∧ mid ≡ₚ entries2.
Proof.
  assert (Heach : ∀ entries1 mid : list (string * fsobject),
    (fix each (entries1 mid : list (string * fsobject)) : Prop :=
       match entries1, mid with
       | [], [] => True
       | entry1 :: rest1, entry2 :: rest2 =>
           entry1.1 = entry2.1 ∧ relisted entry1.2 entry2.2 ∧ each rest1 rest2
       | _, _ => False
       end) entries1 mid
    ↔ Forall2 (λ entry1 entry2 : string * fsobject,
                 entry1.1 = entry2.1 ∧ relisted entry1.2 entry2.2) entries1 mid).
  { clear. induction entries1 as [|e1 es1 IH]; intros [|e2 mid].
    - split; [constructor|done].
    - split; [done|inversion 1].
    - split; [done|inversion 1].
    - rewrite IH. split.
      + intros (? & ? & ?). by constructor.
      + inversion 1 as [|???? [? ?] ?]; subst. done. }
  destruct o2 as [| | |readable2 entries2]; simpl.
  1-3: split; [done|by intros (? & ? & ? & _)].
  split.
  - intros (-> & mid & Hmid%Heach & Hperm). by exists mid, entries2.
  - intros (mid & es2 & [= -> ->] & Hmid%Heach & Hperm). split; [done|by exists mid].
Qed.

Lemma distinct_keys_Directory readable entries :
  distinct_keys (Directory readable entries)
  ↔ NoDup (map entry_key entries)
    ∧ Forall (λ entry : string * fsobject, distinct_keys entry.2) entries.
Proof.
  simpl. apply and_iff_compat_l.
  induction entries as [|e es IH]; [by split; [constructor|]|].
  rewrite IH, Forall_cons. done.
Qed.

Lemma relisted_is_dir o1 o2 : relisted o1 o2 → fs_is_dir o1 = fs_is_dir o2.
Proof.
  destruct o1 as [| | |r es]; try by intros <-.
  by intros (? & ? & -> & _)%relisted_Directory.
Qed.

Lemma key_le_antisym (k1 k2 : bool * string) : key_le k1 k2 → key_le k2 k1 → k1 = k2.
Proof.
  destruct k1 as [b1 s1], k2 as [b2 s2]. unfold key_le. simpl.
  intros [[-> ->]|[-> H12]] [[? ?]|[? H21]]; simplify_eq/=.
  f_equal. by apply (anti_symm String.le).
Qed.

Lemma NoDup_map_inj_on {A B : Type} (f : A → B) (l : list A) (x y : A) :
  NoDup (map f l) → x ∈ l → y ∈ l → f x = f y → x = y.
Proof.
  induction l as [|a l IH]; simpl; [by intros _ ?%elem_of_nil|].
  intros [Ha Hl]%NoDup_cons [->|Hx]%elem_of_cons [->|Hy]%elem_of_cons Hf; [done|..].
  - destruct Ha. rewrite Hf. apply list_elem_of_In, in_map. by apply list_elem_of_In.
  - destruct Ha. rewrite <-Hf. apply list_elem_of_In, in_map. by apply list_elem_of_In.
  - by apply IH.
Qed.

(** With distinct keys, [sorted] gives one list for all the orders of its
    input. *)
Lemma sorted_perm_unique {A : Type} (key : A → bool * string) (l1 l2 : list A) :
  l1 ≡ₚ l2 → NoDup (map key l1) →
  sorted key key_lt l1 = sorted key key_lt l2.
Proof.
  intros Hperm Hkeys.
  apply (StronglySorted_unique_strong (λ a b, key_le (key a) (key b))).
  - intros x1 x2 Hx1 Hx2 H12 H21. rewrite sorted_perm in Hx1, Hx2.
    rewrite <-Hperm in Hx2.
    apply (NoDup_map_inj_on key l1); [done..|]. by apply key_le_antisym.
  - apply (sorted_sorted key key_lt key_le key_lt_le key_lt_ge).
  - apply (sorted_sorted key key_lt key_le key_lt_le key_lt_ge).
  - by rewrite !sorted_perm.
Qed.

Section related_sort.
Context {A B K : Type} (keyA : A → K) (keyB : B → K) (lt : K → K → bool).
Context (R : A → B → Prop).
Hypothesis R_key : ∀ a b, R a b → keyA a = keyB b.

Lemma Forall2_insert_by a b l1 l2 :
  R a b → Forall2 R l1 l2 →
  Forall2 R (insert_by keyA lt a l1) (insert_by keyB lt b l2).
Proof.
  intros Hab Hl. induction Hl as [|x y l1 l2 Hxy Hl IH]; simpl.
  - by repeat constructor.
  - rewrite (R_key a b Hab), (R_key x y Hxy).
    destruct (lt (keyB y) (keyB b)); by repeat constructor.
Qed.

Lemma Forall2_sorted l1 l2 :
  Forall2 R l1 l2 → Forall2 R (sorted keyA lt l1) (sorted keyB lt l2).
Proof.
  induction 1 as [|x y l1 l2 Hxy Hl IH]; simpl; [constructor|].
  by apply Forall2_insert_by.
Qed.
End related_sort.

(** The tree does not depend on the order in which the directories are
    listed, as long as no two entries of a directory share a sort key
    (names that differ by case only, in entries of the same kind, would
    keep the order of the listing). *)
Lemma build_tree_listing_order
    (set_iter : gset string → list string) (self : TreeProcessor) (o1 : fsobject) :
  ∀ (o2 : fsobject) (root_path : Path) (current_depth : Z),
    distinct_keys o1 → relisted o1 o2 →
    build_tree set_iter self root_path o1 current_depth
    = build_tree set_iter self root_path o2 current_depth.
Proof.
  induction o1 as [|st_size| |readable entries1 IH] using fsobject_nested_ind;
    intros o2 root_path current_depth Hkeys Hrel.
  1-3: by rewrite <-Hrel.
  apply relisted_Directory in Hrel as (mid & entries2 & -> & Hmid & Hperm).
  apply distinct_keys_Directory in Hkeys as [Hnodup Hdeep].
  rewrite !build_tree_Directory.
  destruct (too_deep self current_depth); [done|].
  destruct readable; [|done]. do 2 f_equal.
  set (listing := λ entries, listed_children set_iter self root_path entries current_depth).
  change (omap (visit_child set_iter self) (sorted child_key key_lt (listing entries1))
          = omap (visit_child set_iter self) (sorted child_key key_lt (listing entries2))).
  set (same := λ x y : Path * fsobject * option TreeNode,
         x.1.1 = y.1.1 ∧ fs_is_dir x.1.2 = fs_is_dir y.1.2 ∧ x.2 = y.2).
  assert (Hkey : ∀ entry : string * fsobject,
            child_key (Path_div root_path entry.1, entry.2,
                       build_tree set_iter self (Path_div root_path entry.1) entry.2
                         (current_depth + 1)) = entry_key entry).
  { intros [n o]. unfold child_key, entry_key, Path_name, Path_div. simpl.
    by rewrite last_last. }
  assert (Hsame : Forall2 same (listing entries1) (listing mid)).
  { clear Hnodup Hperm.
    induction Hmid as [|e1 e2 es1 es2 [Hname Hrel] Hmid IHmid]; simpl; [constructor|].
    apply Forall_cons in IH as [IH1 IH]. apply Forall_cons in Hdeep as [Hdeep1 Hdeep].
    constructor; [|by apply IHmid].
    unfold same. simpl. rewrite Hname. split; [done|].
    split; [by apply relisted_is_dir|]. by apply IH1. }
  trans (omap (visit_child set_iter self) (sorted child_key key_lt (listing mid))).
  - apply list_omap_ext.
    eapply Forall2_impl;
      [apply (Forall2_sorted child_key child_key key_lt same); [|exact Hsame]|].
    + intros [[p1 c1] n1] [[p2 c2] n2] (Hp & Hd & Hn). simpl in *.
      unfold child_key. by rewrite Hp, Hd.
    + intros [[p1 c1] n1] [[p2 c2] n2] (Hp & Hd & Hn). simpl in *. subst.
      unfold visit_child. by rewrite Hd.
  - f_equal. apply sorted_perm_unique.
    + unfold listing, listed_children. by apply Permutation_map.
    + assert (Hk : map child_key (listing mid) = map entry_key entries1).
      { unfold listing, listed_children. rewrite map_map.
        rewrite (map_ext _ entry_key) by (intros entry; apply Hkey).
        clear -Hmid. induction Hmid as [|e1 e2 es1 es2 [Hname Hrel] Hmid IHmid];
          simpl; [done|].
        rewrite IHmid. f_equal. unfold entry_key.
        by rewrite Hname, (relisted_is_dir _ _ Hrel). }
      by rewrite Hk.
Qed.

(** Entries with equal keys keep the order of the listing: the hypothesis
    on the keys cannot be dropped. *)
Example case_twins_keep_listing_order :
  relisted case_twins case_twins_relisted ∧
  build_tree elements (plain_processor None) ["project"] case_twins 0
  ≠ build_tree elements (plain_processor None) ["project"] case_twins_relisted 0.
Proof.
  split.
  - apply relisted_Directory.
    exists [("README", Regular (Some 1)); ("readme", Regular (Some 2))],
           [("readme", Regular (Some 2)); ("README", Regular (Some 1))].
    split; [done|]. split; [by repeat constructor|]. apply Permutation_swap.
  - vm_compute. discriminate.
Qed.

(** * The rest of the traversal and of the renderings *)

(** ** Trees *)

Lemma TreeNode_nested_ind (P : TreeNode → Prop) :
  (∀ node_path node_name node_is_dir node_size node_children,
     Forall P node_children →
     P (mkTreeNode node_path node_name node_is_dir node_size node_children)) →
  ∀ t, P t.
Proof.
  intros Hnode. fix IH 1. intros [p n d s cs]. apply Hnode.
  induction cs as [|c cs IHcs]; constructor; [apply IH|exact IHcs].
Qed.

Lemma elem_of_descendants (n t : TreeNode) :
  n ∈ descendants t ↔ ∃ child, child ∈ children t ∧ (n = child ∨ n ∈ descendants child).
Proof.
  rewrite descendants_children, list_elem_of_In, in_flat_map.
  split; intros (child & Hchild & Hn); exists child.
  - rewrite list_elem_of_In. split; [done|].
    destruct Hn as [->|Hn]; [by left|right; by apply list_elem_of_In].
  - rewrite <-list_elem_of_In. split; [done|].
    destruct Hn as [->|Hn]; [by left|right; by apply list_elem_of_In].
Qed.

Lemma all_nodes_unfold (P : TreeNode → Prop) (t : TreeNode) :
  all_nodes P t ↔ P t ∧ Forall (all_nodes P) (children t).
Proof.
  unfold all_nodes. rewrite Forall_cons. apply and_iff_compat_l.
  rewrite !Forall_forall. split.
  - intros H child Hchild. apply Forall_cons. split.
    + apply H, elem_of_descendants. exists child. by split; [|left].
    + apply Forall_forall. intros n Hn. apply H, elem_of_descendants.
      exists child. by split; [|right].
  - intros H n (child & Hchild & Hn)%elem_of_descendants.
    specialize (H child Hchild). rewrite Forall_cons, Forall_forall in H.
    destruct H as [Hhere Hbelow]. destruct Hn as [->|Hn]; [done|by apply Hbelow].
Qed.

Lemma height_children (t : TreeNode) (k : nat) :
  (height t ≤ k)%nat ↔ Forall (λ child, (S (height child) ≤ k)%nat) (children t).
Proof.
  destruct t as [p n d s cs]. simpl.
  induction cs as [|c cs IH]; [split; [constructor|lia]|].
  rewrite Forall_cons, <-IH. lia.
Qed.

Section tree_facts.
Variable set_iter : gset string → list string.

(** The converse of [build_tree_children]: the node built for a listed
    entry that the filter lets through is among the children. *)
Lemma build_tree_keeps_child self root_path entries current_depth t entry child_node :
  build_tree set_iter self root_path (Directory true entries) current_depth = Some t →
  entry ∈ entries →
  should_ignore set_iter self (Path_div root_path entry.1) (fs_is_dir entry.2)
    (relative_path_of self (Path_div root_path entry.1)) = false →
  build_tree set_iter self (Path_div root_path entry.1) entry.2 (current_depth + 1)
  = Some child_node →
  child_node ∈ children t.
Proof.
  rewrite build_tree_Directory.
  destruct (too_deep self current_depth); [done|]. intros [= <-] Hentry Hkeep Hbuilt.
  cbn [children]. apply list_elem_of_omap.
  exists (Path_div root_path entry.1, entry.2,
          build_tree set_iter self (Path_div root_path entry.1) entry.2 (current_depth + 1)).
  split.
  - rewrite sorted_perm. unfold listed_children.
    apply list_elem_of_In, in_map_iff. exists entry. by rewrite <-list_elem_of_In.
  - unfold visit_child. by rewrite Hkeep.
Qed.

Lemma build_tree_has_children self root_path obj current_depth t child :
  build_tree set_iter self root_path obj current_depth = Some t →
  child ∈ children t →
  ∃ entries, obj = Directory true entries.
Proof.
  intros Ht Hchild. destruct obj as [|st_size| |[] entries]; [..|by eexists| ].
  1-3: apply build_tree_leaf in Ht; [|done]; rewrite Ht in Hchild;
       by apply elem_of_nil in Hchild.
  rewrite build_tree_Directory in Ht.
  destruct (too_deep self current_depth); [done|]. injection Ht as <-.
  by apply elem_of_nil in Hchild.
Qed.

(** Where a node below the root comes from: some names [rest] lead from
    the root path to it, it was built there, the filter let it through,
    and let through every directory on the way. *)
Lemma build_tree_descendant self root_path obj current_depth t n :
  build_tree set_iter self root_path obj current_depth = Some t →
  n ∈ descendants t →
  ∃ rest o,
    rest ≠ []
    ∧ build_tree set_iter self (root_path ++ rest) o
        (current_depth + Z.of_nat (length rest)) = Some n
    ∧ should_ignore set_iter self (root_path ++ rest) (fs_is_dir o)
        (relative_path_of self (root_path ++ rest)) = false
    ∧ (∀ pre suf, pre ≠ [] → suf ≠ [] → rest = pre ++ suf →
         should_ignore set_iter self (root_path ++ pre) true
           (relative_path_of self (root_path ++ pre)) = false).
Proof.
  revert root_path current_depth t.
  induction obj as [|st_size| |readable entries IH] using fsobject_nested_ind;
    intros root_path current_depth t Ht (child & Hchild & Hn)%elem_of_descendants.
  1-3: apply build_tree_leaf in Ht; [|done]; rewrite Ht in Hchild;
       by apply elem_of_nil in Hchild.
  destruct (build_tree_children _ _ _ _ _ _ _ _ Ht Hchild)
    as ([child_name child_obj] & Hentry & Hbuilt & Hkeep).
  simpl in Hbuilt, Hkeep. unfold Path_div in Hbuilt, Hkeep.
  destruct Hn as [->|Hn].
  - exists [child_name], child_obj. split; [done|]. split; [done|]. split; [done|].
    intros pre suf Hpre Hsuf Heq.
    destruct pre as [|a [|b pre]]; [done| |]; destruct suf; simplify_eq/=.
  - rewrite Forall_forall in IH.
    destruct (IH _ Hentry _ _ _ Hbuilt Hn) as (rest & o & Hrest & Ho & Hkeepo & Hway).
    exists (child_name :: rest), o. split; [done|].
    rewrite <-!(assoc_L (++)) in Ho, Hkeepo. simpl in Ho, Hkeepo.
    split; [|split; [done|]].
    { rewrite <-Ho. f_equal. simpl length. lia. }
    intros pre suf Hpre Hsuf Heq.
    destruct pre as [|a pre]; [done|]. simplify_eq/=.
    destruct pre as [|b pre].
    + assert (fs_is_dir child_obj = true) as <-; [|done].
      apply elem_of_descendants in Hn as (grandchild & Hgrandchild & _).
      by destruct (build_tree_has_children _ _ _ _ _ _ Hbuilt Hgrandchild) as [? ->].
    + specialize (Hway (b :: pre) suf). rewrite <-!(assoc_L (++)) in Hway.
      by apply Hway.
Qed.

End tree_facts.

Lemma too_deep_mono self (d1 d2 : Z) :
  d1 ≤ d2 → too_deep self d2 = false → too_deep self d1 = false.
Proof.
  unfold too_deep. destruct (max_depth (config self)) as [m|]; [|done].
  intros Hle Hd2%bool_decide_eq_false. apply bool_decide_eq_false. lia.
Qed.

Lemma relative_to_Some (p other rel : Path) :
  relative_to p other = Some rel ↔ p = other ++ rel.
Proof.
  revert p. induction other as [|b other IH]; intros p.
  - assert (relative_to p [] = Some p) as -> by (by destruct p).
    simpl. split; [by intros [= ->]|by intros ->].
  - destruct p as [|a p]; simpl; [by split|].
    case_bool_decide as Hab.
    + subst. rewrite IH. split; [by intros ->|by intros [= ->]].
    + split; [done|]. by intros [= ? ?].
Qed.

Section tree_properties.
Variable set_iter : gset string → list string.

(** X1. Every node of a tree returned by [build_tree] is well formed: its
    name is the base name of its path, a directory node has size 0, a node
    that is not a directory has no children, and the path of each child is
    its parent's path extended by the child's name. *)
Theorem build_tree_well_formed self root_path obj current_depth t :
  build_tree set_iter self root_path obj current_depth = Some t →
  all_nodes well_formed_node t.
Proof.
  revert root_path current_depth t.
  induction obj as [|st_size| |readable entries IH] using fsobject_nested_ind;
    intros root_path current_depth t Ht; apply all_nodes_unfold.
  1-3: pose proof Ht as Hleaf; apply build_tree_leaf in Hleaf; [|done];
       apply build_tree_node in Ht as (Hp & Hn & Hd & Hs);
       rewrite Hleaf; split; [|constructor];
       unfold well_formed_node; rewrite Hp, Hn, Hd, Hleaf; done.
  split.
  - pose proof (build_tree_node _ _ _ _ _ _ Ht) as (Hp & Hn & Hd & Hs).
    unfold well_formed_node. rewrite Hp, Hn, Hd, Hs. repeat split; try done.
    apply Forall_forall. intros child Hchild.
    destruct (build_tree_children _ _ _ _ _ _ _ _ Ht Hchild)
      as (entry & _ & (Hcp & Hcn & _)%build_tree_node & _).
    rewrite Hcp, Hcn. unfold Path_div, Path_name. by rewrite last_last.
  - apply Forall_forall. intros child Hchild.
    destruct (build_tree_children _ _ _ _ _ _ _ _ Ht Hchild)
      as (entry & Hentry & Hbuilt & _).
    rewrite Forall_forall in IH. by eapply (IH entry Hentry).
Qed.

(** X2. With a maximum depth [m] configured, a tree built at depth
    [current_depth] has at most [m - current_depth] levels below its root:
    no node lies deeper than the maximum. *)
Theorem build_tree_height self root_path obj current_depth t (m : Z) :
  max_depth (config self) = Some m →
  build_tree set_iter self root_path obj current_depth = Some t →
  current_depth + Z.of_nat (height t) ≤ m.
Proof.
  intros Hmax. revert root_path current_depth t.
  assert (Hroot : ∀ root_path obj current_depth t,
            build_tree set_iter self root_path obj current_depth = Some t →
            current_depth ≤ m).
  { intros p o d t Ht.
    destruct (too_deep self d) eqn:Hdeep.
    - by rewrite build_tree_too_deep in Ht.
    - unfold too_deep in Hdeep. rewrite Hmax in Hdeep.
      apply bool_decide_eq_false in Hdeep. lia. }
  induction obj as [|st_size| |readable entries IH] using fsobject_nested_ind;
    intros root_path current_depth t Ht.
  1-3: pose proof (Hroot _ _ _ _ Ht);
       apply build_tree_leaf in Ht; [|done];
       assert (height t = 0%nat) as ->; [|lia];
       apply Nat.le_0_r, height_children; rewrite Ht; constructor.
  pose proof (Hroot _ _ _ _ Ht) as Hd.
  assert (height t ≤ Z.to_nat (m - current_depth))%nat; [|lia].
  apply height_children, Forall_forall. intros child Hchild.
  destruct (build_tree_children _ _ _ _ _ _ _ _ Ht Hchild)
    as (entry & Hentry & Hbuilt & _).
  rewrite Forall_forall in IH. specialize (IH entry Hentry _ _ _ Hbuilt). lia.
Qed.

(** X3. Nothing below a directory that the filter hides is in the tree:
    for every node below the root, each directory on the way from the root
    to it was let through by the filter. *)
Theorem hidden_directory_prunes_subtree
    self root_path obj current_depth t n (pre suf : list string) :
  build_tree set_iter self root_path obj current_depth = Some t →
  n ∈ descendants t →
  pre ≠ [] → suf ≠ [] → path n = root_path ++ pre ++ suf →
  should_ignore set_iter self (root_path ++ pre) true
    (relative_path_of self (root_path ++ pre)) = false.
Proof.
  intros Ht Hn Hpre Hsuf Hpath.
  destruct (build_tree_descendant _ _ _ _ _ _ _ Ht Hn)
    as (rest & o & _ & (Hp & _)%build_tree_node & _ & Hway).
  apply (Hway pre suf); [done..|].
  rewrite Hp in Hpath. by apply (inj (app root_path)) in Hpath.
Qed.

(** X4. A listed entry is lost only to [PermissionError]. Take an entry
    that exists, that the filter lets through, with the next depth within
    the maximum. When the [try] block at its directory completes (the
    directory is listed and every entry of it is examined), the tree has
    a child node for the entry, at the entry's path and with its
    is-directory flag. When the block is left by [PermissionError], the
    directory node has no child at all, whatever it holds. *)
Theorem build_tree_keeps_visible_entry
    self root_path readable entries current_depth (entry : string * fsobject) :
  entry ∈ entries →
  fs_exists entry.2 = true →
  too_deep self (current_depth + 1) = false →
  should_ignore set_iter self (Path_div root_path entry.1) (fs_is_dir entry.2)
    (relative_path_of self (Path_div root_path entry.1)) = false →
  ∃ t,
    build_tree set_iter self root_path (Directory readable entries) current_depth = Some t
    ∧ if readable
      then ∃ child, child ∈ children t
             ∧ path child = Path_div root_path entry.1
             ∧ name child = entry.1
             ∧ is_dir child = fs_is_dir entry.2
      else children t = [].
Proof.
  intros Hentry Hexists Hdeep Hkeep.
  destruct (build_tree set_iter self root_path (Directory readable entries) current_depth)
    as [t|] eqn:Ht.
  2: { apply build_tree_None in Ht as [Ht|Ht]; [done|].
       by rewrite (too_deep_mono self current_depth (current_depth + 1)) in Ht by (done || lia). }
  exists t. split; [done|].
  destruct readable.
  - destruct (build_tree set_iter self (Path_div root_path entry.1) entry.2
                (current_depth + 1)) as [child|] eqn:Hchild.
    2: { apply build_tree_None in Hchild as [Hchild|Hchild]; congruence. }
    exists child. split; [by eapply build_tree_keeps_child|].
    apply build_tree_node in Hchild as (Hp & Hn & Hd & _).
    rewrite Hp, Hn, Hd. repeat split. unfold Path_name, Path_div. apply last_last.
  - rewrite build_tree_Directory in Ht.
    destruct (too_deep self current_depth); [done|]. by injection Ht as <-.
Qed.

(** X5. When the tree is built from the configured root, the relative
    path the filter was asked about, for a node below the root, is the
    names from the root down to the node joined by ['/']: the path is
    relative to the traversal root, not to the parent. *)
Theorem filter_sees_path_from_root self obj current_depth t n :
  build_tree set_iter self (get_root_path (config self)) obj current_depth = Some t →
  n ∈ descendants t →
  ∃ rest, rest ≠ []
    ∧ path n = get_root_path (config self) ++ rest
    ∧ relative_path_of self (path n) = PyStr.join "/" rest
    ∧ should_ignore set_iter self (path n) (is_dir n) (PyStr.join "/" rest) = false.
Proof.
  intros Ht Hn.
  destruct (build_tree_descendant _ _ _ _ _ _ _ Ht Hn)
    as (rest & o & Hrest & (Hp & _ & Hd & _)%build_tree_node & Hkeep & _).
  exists rest. split; [done|]. split; [done|].
  assert (Hrel : relative_path_of self (get_root_path (config self) ++ rest)
                 = PyStr.join "/" rest).
  { unfold relative_path_of.
    rewrite (proj2 (relative_to_Some _ _ rest) eq_refl). by destruct rest. }
  rewrite Hp, Hd. split; [done|]. by rewrite <-Hrel.
Qed.

(** X6. For a path that does not lie under the configured root, the
    filter is asked about the bare name. *)
Theorem relative_path_falls_back_to_name self (child_path : Path) :
  (∀ rest, child_path ≠ get_root_path (config self) ++ rest) →
  relative_path_of self child_path = Path_name child_path.
Proof.
  intros Hout. unfold relative_path_of.
  destruct (relative_to child_path (get_root_path (config self))) as [rel|] eqn:Hrel;
    [|done].
  apply relative_to_Some in Hrel. by destruct (Hout rel).
Qed.

End tree_properties.

Lemma build_tree_well_formed_witness :
  ∃ t, build_tree elements (plain_processor None) ["project"] mixed_dir 0 = Some t
       ∧ all_nodes well_formed_node t.
Proof.
  eexists. split; [vm_compute; reflexivity|].
  apply (build_tree_well_formed elements (plain_processor None) ["project"] mixed_dir 0).
  vm_compute. reflexivity.
Defined.

Lemma build_tree_height_witness :
  ∃ t, build_tree elements (plain_processor (Some 1)) ["project"] mixed_dir 0 = Some t
       ∧ 0 + Z.of_nat (height t) ≤ 1.
Proof.
  eexists. split; [vm_compute; reflexivity|].
  apply (build_tree_height elements (plain_processor (Some 1)) ["project"] mixed_dir 0 _ 1);
    [reflexivity|vm_compute; reflexivity].
Defined.

Lemma hidden_directory_prunes_subtree_witness :
  should_ignore elements (plain_processor None) ["project"; "z_dir"] true
    (relative_path_of (plain_processor None) ["project"; "z_dir"]) = false.
Proof.
  eapply (hidden_directory_prunes_subtree elements (plain_processor None)
            ["project"] mixed_dir 0 _ notes_node ["z_dir"] ["notes.md"]).
  - vm_compute. reflexivity.
  - apply list_elem_of_In. vm_compute. right. left. reflexivity.
  - done.
  - done.
  - reflexivity.
Defined.

Lemma build_tree_keeps_visible_entry_witness :
  (∃ t,
     build_tree elements (plain_processor None) ["project"] mixed_dir 0 = Some t
     ∧ ∃ child, child ∈ children t
         ∧ path child = ["project"; "B.txt"]
         ∧ name child = "B.txt"
         ∧ is_dir child = false)
  ∧ (∃ t,
       build_tree elements (plain_processor None) ["project"] unsearchable_dir 0 = Some t
       ∧ children t = []).
Proof.
  split.
  - apply (build_tree_keeps_visible_entry elements (plain_processor None) ["project"]
             true _ 0 ("B.txt", Regular None)); [|reflexivity..].
    apply list_elem_of_In. right. right. left. reflexivity.
  - apply (build_tree_keeps_visible_entry elements (plain_processor None) ["project"]
             false _ 0 ("x.txt", Regular (Some 5))); [|reflexivity..].
    apply list_elem_of_In. left. reflexivity.
Defined.

Lemma filter_sees_path_from_root_witness :
  ∃ rest, rest ≠ []
    ∧ path notes_node = ["project"] ++ rest
    ∧ relative_path_of (plain_processor None) (path notes_node) = PyStr.join "/" rest
    ∧ should_ignore elements (plain_processor None) (path notes_node) (is_dir notes_node)
        (PyStr.join "/" rest) = false.
Proof.
  eapply (filter_sees_path_from_root elements (plain_processor None) mixed_dir 0 _ notes_node).
  - vm_compute. reflexivity.
  - apply list_elem_of_In. vm_compute. right. left. reflexivity.
Defined.

Lemma relative_path_falls_back_to_name_witness :
  relative_path_of (plain_processor None) ["elsewhere"; "file.txt"] = "file.txt".
Proof.
  apply (relative_path_falls_back_to_name (plain_processor None) ["elsewhere"; "file.txt"]).
  intros rest. discriminate.
Defined.

(** ** The text rendering *)

Lemma string_app_assoc (a b c : string) : (a +:+ b) +:+ c = a +:+ b +:+ c.
Proof.
  induction a as [|x a IH]; [done|].
  change (String x (a +:+ b) +:+ c = String x (a +:+ b +:+ c)).
  change (String x ((a +:+ b) +:+ c) = String x (a +:+ b +:+ c)). by rewrite IH.
Qed.

Lemma startswith_app (p r : string) : PyStr.startswith (p +:+ r) p = true.
Proof.
  induction p as [|x p IH]; [done|].
  change (String x p +:+ r) with (String x (p +:+ r)). simpl.
  by rewrite IH, Ascii.eqb_refl.
Qed.

Section text_rendering.
Variable get_file_icon : Path → string.
Variable format_file_size : Z → string.

(** The lines of the children, as the loop of [format_tree] appends them. *)
Lemma format_tree_unfold self node prefix is_last :
  ∃ display_name,
    format_tree get_file_icon format_file_size self node prefix is_last
    = (prefix +:+ display_name)
      :: (fix each (children : list TreeNode) : list string :=
            match children with
            | [] => []
            | child :: rest =>
                format_tree get_file_icon format_file_size self child
                  (prefix +:+ (if is_last then "    " else "│   "))
                  (match rest with [] => true | _ :: _ => false end)
                ++ each rest
            end) (children node).
Proof. destruct node. eexists. reflexivity. Qed.

(** [format_tree] writes one line per node: the node it is given and
    every node below it. *)
Lemma format_tree_line_count self node prefix is_last :
  length (format_tree get_file_icon format_file_size self node prefix is_last)
  = S (length (descendants node)).
Proof.
  revert prefix is_last.
  induction node as [p n d s cs IH] using TreeNode_nested_ind; intros prefix is_last.
  destruct (format_tree_unfold self (mkTreeNode p n d s cs) prefix is_last) as [dn ->].
  rewrite descendants_children. cbn [length children]. f_equal.
  induction IH as [|c cs Hc _ IHcs]; [done|].
  cbn [flat_map]. rewrite !length_app, Hc, IHcs. done.
Qed.

(** X7. Every line [format_tree] writes starts with the prefix it was
    given, and every line after the first one starts with the prefix of
    the children: the given prefix followed by four blanks under a last
    child, by a bar and three blanks otherwise. *)
Theorem format_tree_indentation self node prefix is_last :
  Forall (λ line, PyStr.startswith line prefix = true)
    (format_tree get_file_icon format_file_size self node prefix is_last)
  ∧ Forall (λ line,
              PyStr.startswith line (prefix +:+ (if is_last then "    " else "│   ")) = true)
      (tail (format_tree get_file_icon format_file_size self node prefix is_last)).
Proof.
  revert prefix is_last.
  induction node as [p n d s cs IH] using TreeNode_nested_ind; intros prefix is_last.
  destruct (format_tree_unfold self (mkTreeNode p n d s cs) prefix is_last) as [dn ->].
  cbn [tail children].
  assert (Hbelow : Forall (λ line,
            PyStr.startswith line (prefix +:+ (if is_last then "    " else "│   ")) = true)
      ((fix each (children : list TreeNode) : list string :=
          match children with
          | [] => []
          | child :: rest =>
              format_tree get_file_icon format_file_size self child
                (prefix +:+ (if is_last then "    " else "│   "))
                (match rest with [] => true | _ :: _ => false end)
              ++ each rest
          end) cs)).
  { induction IH as [|c cs Hc _ IHcs]; [constructor|].
    apply Forall_app. split; [|done]. by apply Hc. }
  split; [|done]. constructor; [apply startswith_app|].
  eapply Forall_impl; [exact Hbelow|]. intros line Hline. simpl in Hline.
  clear -Hline. revert line Hline.
  generalize (if is_last then "    " else "│   ") as pad. intros pad.
  induction prefix as [|x prefix IHp]; intros line Hline; [done|].
  change (String x prefix +:+ pad) with (String x (prefix +:+ pad)) in Hline.
  destruct line as [|y line]; [done|]. simpl in *.
  apply andb_prop in Hline as [-> Hline]. simpl. by apply IHp.
Qed.

End text_rendering.

(** X8. [generate_tree] returns the one-line error exactly for a root that
    does not exist or a maximum depth below 0; for an existing root within
    the depth limit it returns the rendering of the tree, one line per
    node. *)
Theorem generate_tree_outcome
    (set_iter : gset string → list string)
    (get_file_icon : Path → string) (format_file_size : Z → string)
    (self : TreeProcessor) (root_obj : fsobject) :
  (fs_exists root_obj = false ∨ too_deep self 0 = true →
   generate_tree set_iter get_file_icon format_file_size self root_obj
   = ["Error: Could not access " +:+ Path_str (get_root_path (config self))]) ∧
  (fs_exists root_obj = true → too_deep self 0 = false →
   ∃ t, build_tree set_iter self (get_root_path (config self)) root_obj 0 = Some t
        ∧ generate_tree set_iter get_file_icon format_file_size self root_obj
          = format_tree get_file_icon format_file_size self t "" true
        ∧ length (generate_tree set_iter get_file_icon format_file_size self root_obj)
          = S (length (descendants t))).
Proof.
  unfold generate_tree. split.
  - intros H. by rewrite (proj2 (build_tree_None set_iter self _ root_obj 0) H).
  - intros Hexists Hdeep.
    destruct (build_tree set_iter self (get_root_path (config self)) root_obj 0)
      as [t|] eqn:Ht.
    + exists t. split; [done|]. split; [done|]. apply format_tree_line_count.
    + apply build_tree_None in Ht as [Ht|Ht]; congruence.
Qed.

Lemma generate_tree_outcome_witness :
  generate_tree elements (λ _, "") (λ _, "") (plain_processor None) Absent
  = ["Error: Could not access /project"]
  ∧ length (generate_tree elements (λ _, "") (λ _, "") (plain_processor None) mixed_dir)
    = 5%nat.
Proof.
  destruct (generate_tree_outcome elements (λ _, "") (λ _, "")
              (plain_processor None) Absent) as [Herr _].
  destruct (generate_tree_outcome elements (λ _, "") (λ _, "")
              (plain_processor None) mixed_dir) as [_ Hok].
  split; [apply Herr; by left|].
  destruct (Hok eq_refl eq_refl) as (t & Ht & _ & ->).
  vm_compute in Ht. by injection Ht as <-.
Defined.

(** ** The structured rendering *)

Lemma dict_count_node_to_dict (t : TreeNode) :
  dict_count (_node_to_dict t) = S (length (descendants t)).
Proof.
  induction t as [p n d s cs IH] using TreeNode_nested_ind.
  rewrite descendants_children. cbn [children].
  destruct cs as [|c cs]; [done|].
  cbn [_node_to_dict app dict_count snd]. rewrite !Nat.add_0_l, Nat.add_0_r. f_equal.
  induction IH as [|c' cs' Hc _ IHcs]; [done|].
  cbn [map flat_map]. rewrite length_app, Hc, IHcs. cbn [length]. done.
Qed.

(** X9. The two renderings have the same size: the value of
    [generate_json] holds as many [dict]s as [generate_tree] returns lines,
    one per node of the tree, and one for the error. *)
Theorem generate_json_size
    (set_iter : gset string → list string)
    (get_file_icon : Path → string) (format_file_size : Z → string)
    (self : TreeProcessor) (root_obj : fsobject) :
  dict_count (generate_json set_iter self root_obj)
  = length (generate_tree set_iter get_file_icon format_file_size self root_obj).
Proof.
  unfold generate_json, generate_tree.
  destruct (build_tree set_iter self (get_root_path (config self)) root_obj 0); [|done].
  by rewrite dict_count_node_to_dict, format_tree_line_count.
Qed.

Lemma node_to_dict_fields (t1 t2 : TreeNode) :
  _node_to_dict t1 = _node_to_dict t2 →
  name t1 = name t2 ∧ is_dir t1 = is_dir t2 ∧ size t1 = size t2
  ∧ map _node_to_dict (children t1) = map _node_to_dict (children t2).
Proof.
  destruct t1 as [p1 n1 d1 s1 [|c1 cs1]], t2 as [p2 n2 d2 s2 [|c2 cs2]];
    cbn [_node_to_dict app name is_dir size children map]; intros H;
    simplify_eq; repeat split; congruence.
Qed.

(** X10. The structured rendering loses nothing: two well-formed trees
    (as [build_tree] returns them) with the same root path that have the
    same [_node_to_dict] value are the same tree. *)
Theorem node_to_dict_determines_tree (t1 : TreeNode) :
  ∀ t2, all_nodes well_formed_node t1 → all_nodes well_formed_node t2 →
        path t1 = path t2 → _node_to_dict t1 = _node_to_dict t2 → t1 = t2.
Proof.
  induction t1 as [p1 n1 d1 s1 cs1 IH] using TreeNode_nested_ind.
  intros [p2 n2 d2 s2 cs2] [Hwf1 Hcs1]%all_nodes_unfold [Hwf2 Hcs2]%all_nodes_unfold
    Hpath (Hn & Hd & Hs & Hcs)%node_to_dict_fields.
  cbn [path name is_dir size children] in *. subst. f_equal.
  destruct Hwf1 as (_ & _ & _ & Hp1), Hwf2 as (_ & _ & _ & Hp2).
  cbn [path children] in Hp1, Hp2.
  revert cs2 Hcs Hcs2 Hp2.
  induction IH as [|c1 cs1 Hc1 _ IHcs]; intros [|c2 cs2] Hcs Hcs2 Hp2; try done.
  apply Forall_cons in Hcs1 as [Hc1wf Hcs1], Hcs2 as [Hc2wf Hcs2].
  apply Forall_cons in Hp1 as [Hc1p Hp1], Hp2 as [Hc2p Hp2].
  injection Hcs as Hc Hcs. f_equal; [|by apply IHcs].
  apply Hc1; [done..| |done].
  rewrite Hc1p, Hc2p. f_equal.
  by apply node_to_dict_fields in Hc as [-> _].
Qed.

Lemma node_to_dict_determines_tree_witness :
  _node_to_dict notes_node
  = PyDict [("name", PyStr "notes.md"); ("path", PyStr "/project/z_dir/notes.md");
            ("is_dir", PyBool false); ("size", PyInt 7)]
  ∧ notes_node = notes_node.
Proof.
  split; [reflexivity|].
  assert (Hwf : all_nodes well_formed_node notes_node).
  { apply all_nodes_unfold. split; [|constructor].
    split; [reflexivity|]. split; [discriminate|]. split; [reflexivity|constructor]. }
  apply (node_to_dict_determines_tree notes_node notes_node Hwf Hwf); reflexivity.
Defined.

(** ** Discovery and parsing of the rule files *)

Lemma Path_parents_spec (p d : Path) :
  d ∈ Path_parents p ↔ ∃ rest, rest ≠ [] ∧ p = d ++ rest.
Proof.
  revert d. induction p as [|c p IH]; intros d; simpl.
  - rewrite elem_of_nil. split; [done|]. intros (rest & Hrest & Heq).
    symmetry in Heq. apply app_eq_nil in Heq as [_ ->]. done.
  - rewrite elem_of_app, list_elem_of_singleton, list_elem_of_In, in_map_iff. split.
    + intros [(d' & <- & (rest & Hrest & ->)%list_elem_of_In%IH)| ->].
      * by exists rest.
      * by exists (c :: p).
    + intros (rest & Hrest & Heq). destruct d as [|c' d]; [by right|left].
      simpl in Heq. injection Heq as <- ->.
      exists d. split; [done|]. apply list_elem_of_In, IH. by exists rest.
Qed.

(** X11. [find_gitignore_files] returns exactly the files named
    [.gitignore] that exist in the root directory or in one of its
    ancestors: a rule file in a subdirectory of the root is never found. *)
Theorem find_gitignore_files_spec (exists_ : Path → bool) (root_path f : Path) :
  f ∈ find_gitignore_files exists_ root_path
  ↔ exists_ f = true
    ∧ ∃ dir rest, root_path = dir ++ rest ∧ f = Path_div dir ".gitignore".
Proof.
  unfold find_gitignore_files.
  rewrite list_elem_of_filter, Is_true_true. apply and_iff_compat_l.
  rewrite list_elem_of_In, in_map_iff. split.
  - intros (dir & <- & [<-|Hdir]).
    + exists root_path, []. by rewrite app_nil_r.
    + apply list_elem_of_In, Path_parents_spec in Hdir as (rest & _ & ->).
      by exists dir, rest.
  - intros (dir & rest & -> & ->). exists dir. split; [done|].
    destruct rest as [|r rest]; [left; by rewrite app_nil_r|right].
    apply list_elem_of_In, Path_parents_spec. by exists (r :: rest).
Qed.

Lemma find_gitignore_files_spec_witness :
  ["project"; ".gitignore"] ∈ find_gitignore_files (gi_exists broken_rulefs) ["project"; "src"].
Proof.
  apply (find_gitignore_files_spec (gi_exists broken_rulefs) ["project"; "src"]
           ["project"; ".gitignore"]).
  split; [reflexivity|]. by exists ["project"], ["src"].
Defined.

Lemma foldl_parse_line (lines : list string) (acc : list string * list string) :
  foldl parse_line acc lines
  = (acc.1 ++ (foldl parse_line ([], []) lines).1,
     acc.2 ++ (foldl parse_line ([], []) lines).2).
Proof.
  revert acc. induction lines as [|line lines IH]; intros [ig inc]; cbn [foldl fst snd].
  - by rewrite !app_nil_r.
  - rewrite (IH (parse_line (ig, inc) line)), (IH (parse_line ([], []) line)).
    unfold parse_line.
    destruct (bool_decide (PyStr.strip line = "") || PyStr.startswith (PyStr.strip line) "#");
      [done|].
    destruct (PyStr.startswith (PyStr.strip line) "!"); simpl;
      by rewrite <-?(assoc_L (++)).
Qed.

(** X12. The rules of a file are those of its lines, in order: parsing
    two runs of lines one after the other gives the rules of the first
    followed by the rules of the second, on both lists. No line changes
    what another line yields. *)
Theorem parse_gitignore_app (lines1 lines2 : list string) (ending1 ending : outcome) :
  parse_gitignore (Reads (lines1 ++ lines2) ending)
  = ((parse_gitignore (Reads lines1 ending1)).1 ++ (parse_gitignore (Reads lines2 ending)).1,
     (parse_gitignore (Reads lines1 ending1)).2 ++ (parse_gitignore (Reads lines2 ending)).2).
Proof.
  unfold parse_gitignore. cbn [read_rules fst].
  by rewrite foldl_app, foldl_parse_line.
Qed.

(** ** The rules that reach the filter *)

(** X13. With [respect_gitignore] off, the custom ignore rules and the
    force-include rules of the configuration never reach the filter: a
    processor made by [TreeProcessor.__init__] hides an entry exactly when
    [Config.should_show_file] refuses it, whatever rules were given. *)
Theorem no_gitignore_drops_custom_rules
    (set_iter : gset string → list string) (fs : rulefs) (cfg : Config)
    (path : Path) (path_is_dir : bool) (relative_path : string) :
  iteration_order set_iter →
  respect_gitignore cfg = false →
  should_ignore set_iter (TreeProcessor_init fs cfg) path path_is_dir relative_path
  = negb (should_show_file cfg path).
Proof.
  intros Horder Hoff. unfold TreeProcessor_init.
  rewrite load_ignore_patterns_disabled by done.
  unfold should_ignore, should_show_file. cbn [config ignore_patterns include_patterns].
  assert (set_iter ∅ = []) as ->.
  { apply Permutation_nil_r. by rewrite (Horder ∅), elements_empty. }
  by destruct (negb (show_hidden cfg) && PyStr.startswith (Path_name path) ".").
Qed.

Lemma no_gitignore_drops_custom_rules_witness :
  matches_pattern "scratch.tmp" "*.tmp" false = true ∧
  should_ignore elements (TreeProcessor_init broken_rulefs no_gitignore_config)
    ["project"; "scratch.tmp"] false "scratch.tmp"
  = false.
Proof.
  split; [vm_compute; reflexivity|].
  rewrite (no_gitignore_drops_custom_rules elements broken_rulefs no_gitignore_config
             ["project"; "scratch.tmp"] false "scratch.tmp" elements_order eq_refl).
  reflexivity.
Defined.

(** ** [strip] *)

Lemma list_ascii_inj (s1 s2 : string) :
  String.list_ascii_of_string s1 = String.list_ascii_of_string s2 → s1 = s2.
Proof.
  intros H. by rewrite <-(String.string_of_list_ascii_of_string s1),
    <-(String.string_of_list_ascii_of_string s2), H.
Qed.

Lemma list_ascii_rev (s : string) :
  String.list_ascii_of_string (String.rev s) = reverse (String.list_ascii_of_string s).
Proof.
  unfold String.rev, reverse.
  change (String.list_ascii_of_string (String.rev_app s "")
          = rev_append (String.list_ascii_of_string s) (String.list_ascii_of_string "")).
  generalize "" as t. induction s as [|a s IH]; intros t; [done|]. simpl. by rewrite IH.
Qed.

Lemma string_rev_involutive (s : string) : String.rev (String.rev s) = s.
Proof. apply list_ascii_inj. by rewrite !list_ascii_rev, reverse_involutive. Qed.

Lemma lstrip_suffix (s : string) :
  ∃ pre, String.list_ascii_of_string s = pre ++ String.list_ascii_of_string (PyStr.lstrip s).
Proof.
  induction s as [|a s [pre IH]]; [by exists []|]. simpl.
  destruct (PyStr.isspace a); [|by exists []].
  exists (a :: pre). simpl. by rewrite IH.
Qed.

Lemma lstrip_head (s : string) (a : ascii) :
  head (String.list_ascii_of_string (PyStr.lstrip s)) = Some a → PyStr.isspace a = false.
Proof.
  induction s as [|b s IH]; [done|]. simpl.
  destruct (PyStr.isspace b) eqn:Hb; [done|]. simpl. by intros [= <-].
Qed.

Lemma lstrip_fixed (s : string) :
  (∀ a, head (String.list_ascii_of_string s) = Some a → PyStr.isspace a = false) →
  PyStr.lstrip s = s.
Proof. destruct s as [|a s]; [done|]. simpl. intros H. by rewrite (H a). Qed.

Lemma strip_idempotent (s : string) : PyStr.strip (PyStr.strip s) = PyStr.strip s.
Proof.
  unfold PyStr.strip.
  set (u := PyStr.lstrip s). set (v := PyStr.lstrip (String.rev u)).
  assert (Hv : PyStr.lstrip (String.rev v) = String.rev v).
  { apply lstrip_fixed. intros a. rewrite list_ascii_rev, head_reverse. intros Ha.
    destruct (lstrip_suffix (String.rev u)) as [pre Hpre]. fold v in Hpre.
    assert (last (String.list_ascii_of_string (String.rev u)) = Some a) as Hlast.
    { rewrite Hpre. apply last_app_Some. by left. }
    rewrite list_ascii_rev, last_reverse in Hlast. by apply (lstrip_head s). }
  rewrite Hv, string_rev_involutive. f_equal.
  apply lstrip_fixed. intros a. apply lstrip_head.
Qed.

(** X14. Every ignore rule [parse_gitignore] returns is the stripped text
    of a line of the file; it is not empty, carries no white space at
    either end, and starts neither with ['#'] nor with ['!']. Every
    override rule is the stripped text of a line that starts with ['!'],
    with that one character removed. *)
Theorem parse_gitignore_rules (lines : list string) (ending : outcome) :
  Forall (λ rule,
            (∃ line, line ∈ lines ∧ rule = PyStr.strip line)
            ∧ rule ≠ "" ∧ PyStr.strip rule = rule
            ∧ PyStr.startswith rule "#" = false ∧ PyStr.startswith rule "!" = false)
         (parse_gitignore (Reads lines ending)).1
  ∧ Forall (λ rule, ∃ line, line ∈ lines ∧ PyStr.strip line = "!" +:+ rule)
           (parse_gitignore (Reads lines ending)).2.
Proof.
  unfold parse_gitignore. cbn [read_rules fst].
  induction lines as [|line lines IH] using rev_ind; [by split; constructor|].
  rewrite foldl_app. cbn [foldl].
  destruct IH as [IHig IHinc].
  assert (Hig : ∀ rules : list string,
            Forall (λ rule,
              (∃ line, line ∈ lines ∧ rule = PyStr.strip line)
              ∧ rule ≠ "" ∧ PyStr.strip rule = rule
              ∧ PyStr.startswith rule "#" = false ∧ PyStr.startswith rule "!" = false) rules →
            Forall (λ rule,
              (∃ line0, line0 ∈ lines ++ [line] ∧ rule = PyStr.strip line0)
              ∧ rule ≠ "" ∧ PyStr.strip rule = rule
              ∧ PyStr.startswith rule "#" = false ∧ PyStr.startswith rule "!" = false) rules).
  { intros rules Hrules. eapply Forall_impl; [exact Hrules|].
    intros rule ((l & Hl & ->) & H). split; [|done].
    exists l. split; [|done]. apply elem_of_app. by left. }
  assert (Hinc : ∀ rules : list string,
            Forall (λ rule, ∃ line, line ∈ lines ∧ PyStr.strip line = "!" +:+ rule) rules →
            Forall (λ rule, ∃ line0, line0 ∈ lines ++ [line]
                                     ∧ PyStr.strip line0 = "!" +:+ rule) rules).
  { intros rules Hrules. eapply Forall_impl; [exact Hrules|].
    intros rule (l & Hl & Heq).
    exists l. split; [|done]. apply elem_of_app. by left. }
  assert (Hline : line ∈ lines ++ [line]).
  { apply elem_of_app. right. apply list_elem_of_here. }
  destruct (foldl parse_line ([], []) lines) as [ig inc]. cbn [fst snd] in *.
  unfold parse_line.
  case_bool_decide as Hempty; cbn [orb]; [by split; auto|].
  destruct (PyStr.startswith (PyStr.strip line) "#") eqn:Hcomment; [by split; auto|].
  destruct (PyStr.startswith (PyStr.strip line) "!") eqn:Hbang; cbn [fst snd].
  - split; [by auto|]. apply Forall_app. split; [by auto|].
    constructor; [|constructor]. exists line. split; [done|].
    destruct (PyStr.strip line) as [|c rest]; [done|]. simpl in Hbang.
    apply andb_prop in Hbang as [Hc%Ascii.eqb_eq _]. by subst.
  - split; [|by auto]. apply Forall_app. split; [by auto|].
    constructor; [|constructor]. split; [by exists line|].
    split; [done|]. split; [apply strip_idempotent|done].
Qed.

(** ** Rules without wildcard, suffix rules, nested paths *)

Lemma plain_name_literal (s : string) :
  plain_name s = true →
  Forall (λ c, literal_char c = true) (String.list_ascii_of_string s)
  ∧ PyStr.contains "/" s = false.
Proof.
  induction s as [|c s IH]; simpl; [by split; [constructor|]|].
  intros H. apply andb_prop in H as [H Hs]. apply andb_prop in H as [Hc Hslash].
  apply negb_true_iff in Hslash. destruct (IH Hs) as [Hlit Hno].
  split; [by constructor|]. by rewrite Hslash.
Qed.

Lemma translate_literal (p : list ascii) :
  Forall (λ c, literal_char c = true) p → Fnmatch.translate p = map Fnmatch.RLit p.
Proof.
  unfold Fnmatch.translate. induction 1 as [|c p Hc _ IH]; [done|]. simpl.
  unfold literal_char in Hc. apply negb_true_iff in Hc.
  apply orb_false_elim in Hc as [[-> ->]%orb_false_elim ->]. by rewrite IH.
Qed.

Lemma re_fullmatch_literal (p name : list ascii) :
  Fnmatch.re_fullmatch (map Fnmatch.RLit p) name = bool_decide (name = p).
Proof.
  revert name. induction p as [|c p IH]; intros [|a name]; simpl; try done.
  rewrite IH. destruct (Ascii.eqb_spec a c) as [->|Hne]; simpl.
  - apply bool_decide_ext. split; [by intros ->|by intros [= ->]].
  - symmetry. apply bool_decide_eq_false. by intros [= ? ?].
Qed.

Lemma fnmatch_literal (name pat : string) :
  Forall (λ c, literal_char c = true) (String.list_ascii_of_string pat) →
  Fnmatch.fnmatch name pat = bool_decide (name = pat).
Proof.
  intros Hpat. unfold Fnmatch.fnmatch.
  rewrite translate_literal, re_fullmatch_literal by done.
  apply bool_decide_ext. split; [apply list_ascii_inj|by intros ->].
Qed.

Lemma fnmatch_star_literal (name ext : string) :
  Forall (λ c, literal_char c = true) (String.list_ascii_of_string ext) →
  Fnmatch.fnmatch name ("*" +:+ ext) = PyStr.endswith name ext.
Proof.
  intros Hext. unfold Fnmatch.fnmatch.
  change (String.list_ascii_of_string ("*" +:+ ext))
    with ("*"%char :: String.list_ascii_of_string ext).
  assert (Fnmatch.translate ("*"%char :: String.list_ascii_of_string ext)
          = Fnmatch.RStar :: map Fnmatch.RLit (String.list_ascii_of_string ext)) as ->.
  { unfold Fnmatch.translate. cbn [length Fnmatch.translate_aux].
    change (Ascii.eqb "*" "*") with true. cbv iota.
    change (Fnmatch.translate_aux (length (String.list_ascii_of_string ext))
              (String.list_ascii_of_string ext))
      with (Fnmatch.translate (String.list_ascii_of_string ext)).
    rewrite translate_literal by done.
    by destruct (String.list_ascii_of_string ext). }
  induction name as [|a name IH]; cbn [Fnmatch.re_fullmatch String.list_ascii_of_string].
  - rewrite re_fullmatch_literal. cbn [PyStr.endswith]. rewrite !orb_false_r.
    apply bool_decide_ext. split; [by intros <-%(list_ascii_inj "")|by intros <-].
  - cbn [Fnmatch.re_fullmatch] in IH. rewrite IH, re_fullmatch_literal.
    cbn [PyStr.endswith]. f_equal.
    apply bool_decide_ext. split; [apply (list_ascii_inj (String a name))|by intros <-].
Qed.

Lemma endswith_slash_contains (s : string) :
  PyStr.endswith s "/" = true → PyStr.contains "/" s = true.
Proof.
  induction s as [|c s IH]; [done|]. simpl.
  intros [Heq%bool_decide_eq_true|Hs]%orb_prop.
  - injection Heq as -> _. done.
  - rewrite IH by done. apply orb_true_r.
Qed.

(** A rule without ['/'] is compared with each segment of the path. *)
Lemma matches_pattern_slash_free (p pat : string) (d : bool) :
  PyStr.contains "/" pat = false →
  matches_pattern p pat d
  = existsb (λ part, Fnmatch.fnmatch part pat) (PyStr.split "/" p).
Proof.
  intros Hno. unfold matches_pattern.
  destruct (PyStr.endswith pat "/") eqn:Hend.
  { apply endswith_slash_contains in Hend. congruence. }
  rewrite Hno. by destruct pat as [|c pat]; [|simpl in *; apply orb_false_elim in Hno as [-> _]].
Qed.

Lemma split_nonempty (sep : ascii) (s : string) : PyStr.split sep s ≠ [].
Proof.
  induction s as [|c s IH]; simpl; [done|].
  destruct (Ascii.eqb c sep); [done|]. by destruct (PyStr.split sep s).
Qed.

Lemma split_join (a b : string) :
  PyStr.split "/" (a +:+ "/" +:+ b) = PyStr.split "/" a ++ PyStr.split "/" b.
Proof.
  induction a as [|c a IH]; [done|].
  change (String c a +:+ "/" +:+ b) with (String c (a +:+ "/" +:+ b)).
  simpl. rewrite IH. destruct (Ascii.eqb c "/"); [done|].
  pose proof (split_nonempty "/" a). by destruct (PyStr.split "/" a).
Qed.

(** X15. A rule that is a plain name (no wildcard, no ['/']) matches a
    relative path exactly when the name is one of the segments of the
    path, at any depth and for files and directories alike. *)
Theorem matches_pattern_plain_name (p pat : string) (d : bool) :
  plain_name pat = true →
  matches_pattern p pat d = true ↔ pat ∈ PyStr.split "/" p.
Proof.
  intros [Hlit Hno]%plain_name_literal.
  rewrite matches_pattern_slash_free, existsb_exists by done.
  setoid_rewrite <-list_elem_of_In. split.
  - intros (part & Hpart & Hm). rewrite fnmatch_literal in Hm by done.
    by apply bool_decide_eq_true in Hm as <-.
  - intros Hin. exists pat. split; [done|].
    rewrite fnmatch_literal by done. by apply bool_decide_eq_true.
Qed.

Lemma matches_pattern_plain_name_witness :
  matches_pattern "src/node_modules/package" "node_modules" false = true.
Proof.
  apply (matches_pattern_plain_name "src/node_modules/package" "node_modules" false);
    [reflexivity|].
  apply list_elem_of_In. vm_compute. right. left. reflexivity.
Defined.

(** X16. A suffix rule, [*] followed by plain text (such as [*.log]),
    matches a relative path exactly when some segment of the path ends
    with that text. *)
Theorem matches_pattern_suffix_rule (p ext : string) (d : bool) :
  plain_name ext = true →
  matches_pattern p ("*" +:+ ext) d = true
  ↔ ∃ segment, segment ∈ PyStr.split "/" p ∧ PyStr.endswith segment ext = true.
Proof.
  intros [Hlit Hno]%plain_name_literal.
  rewrite matches_pattern_slash_free, existsb_exists by done.
  setoid_rewrite <-list_elem_of_In.
  split; intros (part & Hpart & Hm); exists part; (split; [done|]).
  - by rewrite fnmatch_star_literal in Hm.
  - by rewrite fnmatch_star_literal.
Qed.

Lemma matches_pattern_suffix_rule_witness :
  matches_pattern "logs/debug.log" "*.log" false = true.
Proof.
  apply (matches_pattern_suffix_rule "logs/debug.log" ".log" false); [reflexivity|].
  exists "debug.log". split; [|reflexivity].
  apply list_elem_of_In. vm_compute. right. left. reflexivity.
Defined.

(** X17. For a rule without ['/'], a path made of two parts joined by
    ['/'] matches exactly when one of the parts does, and the
    is-directory flag plays no role: a rule that matches a directory
    matches every path below it. *)
Theorem matches_pattern_nested (a b pat : string) (d d1 d2 : bool) :
  PyStr.contains "/" pat = false →
  matches_pattern (a +:+ "/" +:+ b) pat d
  = matches_pattern a pat d1 || matches_pattern b pat d2.
Proof.
  intros Hno. rewrite !matches_pattern_slash_free by done.
  by rewrite split_join, existsb_app.
Qed.

Lemma matches_pattern_nested_witness :
  matches_pattern "build/output/app.js" "build" false
  = matches_pattern "build" "build" true || matches_pattern "output/app.js" "build" false.
Proof.
  apply (matches_pattern_nested "build" "output/app.js" "build" false true false).
  reflexivity.
Defined.

(** ** [format_file_size] *)

Lemma round_half_even_near (num den : Z) :
  0 < den → 0 ≤ num →
  0 ≤ round_half_even num den
  ∧ 2 * Z.abs (num - round_half_even num den * den) ≤ den.
Proof.
  intros Hden Hnum. unfold round_half_even.
  pose proof (Z.div_mod num den ltac:(lia)) as Hdm.
  pose proof (Z.mod_pos_bound num den Hden) as Hr.
  pose proof (Z.div_pos num den Hnum Hden) as Hq.
  set (q := num / den) in *. set (r := num mod den) in *.
  destruct (2 * r <? den) eqn:H1; [apply Z.ltb_lt in H1; split; nia|].
  apply Z.ltb_ge in H1.
  destruct (den <? 2 * r) eqn:H2; [apply Z.ltb_lt in H2; split; nia|].
  apply Z.ltb_ge in H2. destruct (Z.even q); split; nia.
Qed.

Lemma round_half_even_eq (num den t : Z) :
  0 < den → Z.even t = true →
  (2 * t - 1) * den ≤ 2 * num < (2 * t + 1) * den →
  round_half_even num den = t.
Proof.
  intros Hden Heven Hnear. unfold round_half_even.
  pose proof (Z.div_mod num den ltac:(lia)) as Hdm.
  pose proof (Z.mod_pos_bound num den Hden) as Hr.
  set (q := num / den) in *. set (r := num mod den) in *.
  assert (q = t ∨ q = t - 1) as [->| ->] by nia.
  - destruct (2 * r <? den) eqn:H1; [done|]. apply Z.ltb_ge in H1. nia.
  - destruct (2 * r <? den) eqn:H1; [apply Z.ltb_lt in H1; nia|].
    destruct (den <? 2 * r); [lia|].
    rewrite Z.even_sub, Heven. simpl. lia.
Qed.

(** X18. [format_file_size] names the size in the first unit in which it
    is below 1024 (petabytes when there is none), with one decimal that is
    the nearest tenth of the exact value: the number printed is within
    half a tenth of a unit of the size. For sizes below [2^53]. *)
Theorem format_file_size_nearest_tenth (size : Z) :
  0 ≤ size < 2 ^ 53 →
  ∃ unit den tenths,
    (unit, den) ∈ size_units
    ∧ format_file_size size
      = decimal (tenths / 10) +:+ "." +:+ decimal (tenths mod 10) +:+ unit
    ∧ 0 ≤ tenths
    ∧ 2 * Z.abs (10 * size - tenths * den) ≤ den
    ∧ (unit ≠ "PB" → size < 1024 * den)
    ∧ (unit ≠ "B" → den ≤ size).
Proof.
  intros [Hpos _]. unfold format_file_size.
  rewrite (proj2 (Z.ltb_ge size 0) Hpos).
  assert (Hstage : ∀ unit den, 0 < den →
            (unit, den) ∈ size_units →
            (unit ≠ "PB" → size < 1024 * den) → (unit ≠ "B" → den ≤ size) →
            ∃ unit' den' tenths,
              (unit', den') ∈ size_units
              ∧ fixed1 size den +:+ unit
                = decimal (tenths / 10) +:+ "." +:+ decimal (tenths mod 10) +:+ unit'
              ∧ 0 ≤ tenths
              ∧ 2 * Z.abs (10 * size - tenths * den') ≤ den'
              ∧ (unit' ≠ "PB" → size < 1024 * den')
              ∧ (unit' ≠ "B" → den' ≤ size)).
  { intros unit den Hden Hin Hlt Hge.
    exists unit, den, (round_half_even (10 * size) den).
    destruct (round_half_even_near (10 * size) den Hden ltac:(lia)) as [H0 Hnear].
    split; [done|]. split; [|done].
    unfold fixed1. by rewrite !string_app_assoc. }
  cbn [format_size_from].
  repeat match goal with
         | |- context [size <? ?b] =>
             destruct (Z.ltb_spec size b)
         end.
  - apply (Hstage "B" 1); [lia| |lia|done]. apply list_elem_of_In. simpl. tauto.
  - apply (Hstage "KB" (1024 * 1)); [lia| |lia|lia]. apply list_elem_of_In. simpl. tauto.
  - apply (Hstage "MB" (1024 * (1024 * 1))); [lia| |lia|lia].
    apply list_elem_of_In. simpl. tauto.
  - apply (Hstage "GB" (1024 * (1024 * (1024 * 1)))); [lia| |lia|lia].
    apply list_elem_of_In. simpl. tauto.
  - apply (Hstage "TB" (1024 * (1024 * (1024 * (1024 * 1))))); [lia| |lia|lia].
    apply list_elem_of_In. simpl. tauto.
  - apply (Hstage "PB" (1024 * (1024 * (1024 * (1024 * (1024 * 1)))))); [lia| |done|lia].
    apply list_elem_of_In. simpl. tauto.
Qed.

Lemma format_file_size_nearest_tenth_witness :
  format_file_size 1536 = "1.5KB" ∧
  ∃ unit den tenths,
    (unit, den) ∈ size_units
    ∧ format_file_size 1536
      = decimal (tenths / 10) +:+ "." +:+ decimal (tenths mod 10) +:+ unit
    ∧ 0 ≤ tenths
    ∧ 2 * Z.abs (10 * 1536 - tenths * den) ≤ den
    ∧ (unit ≠ "PB" → 1536 < 1024 * den)
    ∧ (unit ≠ "B" → den ≤ 1536).
Proof.
  split; [reflexivity|]. apply (format_file_size_nearest_tenth 1536). lia.
Defined.

(** X19. A size below 1024 is printed as the number of bytes followed by
    [.0B]. *)
Theorem format_file_size_bytes (size : Z) :
  0 ≤ size < 1024 →
  format_file_size size = decimal size +:+ ".0B".
Proof.
  intros [Hpos Hlt]. unfold format_file_size.
  rewrite (proj2 (Z.ltb_ge size 0) Hpos). cbn [format_size_from].
  rewrite (proj2 (Z.ltb_lt size (1024 * 1))) by lia.
  unfold fixed1, round_half_even.
  rewrite Z.div_1_r, Z.mod_1_r. change (2 * 0 <? 1) with true. cbv iota.
  replace (10 * size / 10) with size
    by (symmetry; rewrite Z.mul_comm; apply Z.div_mul; lia).
  replace ((10 * size) mod 10) with 0
    by (symmetry; rewrite Z.mul_comm; apply Z.mod_mul; lia).
  rewrite string_app_assoc. reflexivity.
Qed.

Lemma format_file_size_bytes_witness : format_file_size 512 = "512.0B".
Proof. apply (format_file_size_bytes 512). lia. Defined.

(** X20. The unit is chosen before the rounding: a size less than half a
    tenth of a unit below the next unit is printed as [1024.0] in the
    smaller unit (1048575 bytes are [1024.0KB], not [1.0MB]). *)
Theorem format_file_size_prints_1024 (size : Z) (unit : string) (den : Z) :
  (unit, den) ∈ [("KB", 1024); ("MB", 1024 ^ 2); ("GB", 1024 ^ 3); ("TB", 1024 ^ 4)] →
  size < 1024 * den →
  20 * (1024 * den - size) ≤ den →
  format_file_size size = "1024.0" +:+ unit.
Proof.
  intros Hin Hlt Hnear.
  assert (Hfixed : ∀ d, d = den → 0 < den → fixed1 size d = "1024.0").
  { intros d -> Hden. unfold fixed1.
    rewrite (round_half_even_eq (10 * size) den 10240) by (done || lia).
    reflexivity. }
  unfold format_file_size.
  apply list_elem_of_In in Hin. simpl in Hin.
  destruct Hin as [[= <- <-]|[[= <- <-]|[[= <- <-]|[[= <- <-]|[]]]]];
    rewrite (proj2 (Z.ltb_ge size 0)) by lia; cbn [format_size_from].
  - rewrite (proj2 (Z.ltb_ge size (1024 * 1))) by lia.
    rewrite (proj2 (Z.ltb_lt size (1024 * (1024 * 1)))) by lia.
    by rewrite Hfixed by reflexivity.
  - do 2 (rewrite (proj2 (Z.ltb_ge size _)) by lia).
    rewrite (proj2 (Z.ltb_lt size _)) by lia.
    by rewrite Hfixed by reflexivity.
  - do 3 (rewrite (proj2 (Z.ltb_ge size _)) by lia).
    rewrite (proj2 (Z.ltb_lt size _)) by lia.
    by rewrite Hfixed by reflexivity.
  - do 4 (rewrite (proj2 (Z.ltb_ge size _)) by lia).
    rewrite (proj2 (Z.ltb_lt size _)) by lia.
    by rewrite Hfixed by reflexivity.
Qed.

Lemma format_file_size_prints_1024_witness : format_file_size 1048575 = "1024.0KB".
Proof.
  apply (format_file_size_prints_1024 1048575 "KB" 1024); [|lia..].
  apply list_elem_of_here.
Defined.

(** ** [is_text_file] and [get_file_icon] *)

Lemma utf8_from_ascii (bytes : list ascii) :
  Forall (λ b, (N_of_ascii b ≤ 127)%N) bytes → utf8_from 0 128 191 bytes = true.
Proof.
  induction 1 as [|b bytes Hb _ IH]; [done|]. simpl.
  by rewrite (proj2 (N.leb_le _ _) Hb).
Qed.

Lemma utf8_from_lead_last (b : ascii) (pre : list ascii) :
  (192 ≤ N_of_ascii b)%N →
  ∀ need lo hi, (hi ≤ 191)%N → utf8_from need lo hi (pre ++ [b]) = false.
Proof.
  intros Hb. induction pre as [|a pre IH]; intros need lo hi Hhi.
  - cbn [app utf8_from]. destruct need as [|need].
    + assert ((N_of_ascii b <=? 127)%N = false) as -> by (apply N.leb_gt; lia).
      repeat match goal with
             | |- context [if ?c then _ else _] => destruct c
             end; done.
    + assert ((N_of_ascii b <=? hi)%N = false) as -> by (apply N.leb_gt; lia).
      by rewrite andb_false_r.
  - cbn [app utf8_from]. destruct need as [|need].
    + repeat match goal with
             | |- context [if ?c then _ else _] => destruct c
             end; try done; by apply IH.
    + rewrite IH by done. apply andb_false_r.
Qed.

(** X21. A regular file whose first 1024 bytes are ASCII characters other
    than NUL is a text file, whatever its name. *)
Theorem is_text_file_ascii (name : string) (bytes : list ascii) :
  Forall (λ b, (1 ≤ N_of_ascii b ≤ 127)%N) (take 1024 bytes) →
  is_text_file true name (Some bytes) = true.
Proof.
  intros Hascii. unfold is_text_file. cbn [negb].
  case_bool_decide; [done|].
  destruct (take 1024 bytes) as [|b chunk] eqn:Hchunk; [done|].
  assert (existsb (Ascii.eqb zero) (b :: chunk) = false) as ->.
  { apply not_true_is_false. intros (c & Hc & <-%Ascii.eqb_eq)%existsb_exists.
    apply list_elem_of_In in Hc. rewrite Forall_forall in Hascii.
    specialize (Hascii _ Hc). simpl in Hascii. lia. }
  apply utf8_from_ascii. eapply Forall_impl; [exact Hascii|]. simpl. lia.
Qed.

Lemma is_text_file_ascii_witness :
  is_text_file true "Makefile" (Some (String.list_ascii_of_string "all: build")) = true.
Proof.
  apply (is_text_file_ascii "Makefile" (String.list_ascii_of_string "all: build")).
  cbn [take String.list_ascii_of_string]. repeat constructor; vm_compute; congruence.
Defined.

(** X22. Only the first 1024 bytes are read, and they are decoded on
    their own: a file without a known text extension whose 1024th byte
    opens a multi-byte character is not a text file, even when the file
    as a whole is valid UTF-8. *)
Theorem is_text_file_cut_character (name : string) (bytes : list ascii) (b : ascii) :
  PyStr.lower (Path_suffix name) ∉ text_extensions →
  bytes !! 1023%nat = Some b →
  (192 ≤ N_of_ascii b)%N →
  is_text_file true name (Some bytes) = false.
Proof.
  intros Hext Hb Hlead. unfold is_text_file. cbn [negb].
  rewrite bool_decide_eq_false_2 by done.
  change 1024%nat with (S 1023). rewrite (take_S_r _ _ _ Hb).
  destruct (take 1023 bytes ++ [b]) as [|c chunk] eqn:Hchunk.
  { by destruct (take 1023 bytes). }
  rewrite <-Hchunk. unfold utf8_valid. rewrite utf8_from_lead_last by done.
  by destruct (existsb _ _).
Qed.

Lemma lower_char_dot (c : ascii) :
  Ascii.eqb (PyStr.lower_char c) "." = Ascii.eqb c ".".
Proof. by destruct c as [[] [] [] [] [] [] [] []]. Qed.

Lemma last_dot_lower (s : string) :
  last_dot (PyStr.lower s) = PyStr.lower <$> last_dot s.
Proof.
  induction s as [|c s IH]; [done|]. cbn [PyStr.lower last_dot].
  rewrite IH, lower_char_dot.
  destruct (last_dot s); [done|]. by destruct (Ascii.eqb c ".").
Qed.

Lemma Path_suffix_lower (name : string) :
  Path_suffix (PyStr.lower name) = PyStr.lower (Path_suffix name).
Proof.
  destruct name as [|c rest]; [done|]. cbn [PyStr.lower Path_suffix].
  rewrite last_dot_lower. by destruct (last_dot rest) as [[|dot [|c' t]]|].
Qed.

(** X23. The extension is compared without case: two names that differ
    by case only get the same verdict from [is_text_file], for the same
    content. *)
Theorem is_text_file_ignores_case
    (path_is_file : bool) (name1 name2 : string) (content : option (list ascii)) :
  PyStr.lower name1 = PyStr.lower name2 →
  is_text_file path_is_file name1 content = is_text_file path_is_file name2 content.
Proof.
  intros Hlower. unfold is_text_file.
  by rewrite <-!Path_suffix_lower, Hlower.
Qed.

Lemma is_text_file_ignores_case_witness :
  is_text_file true "NOTES.MD" None = is_text_file true "notes.md" None.
Proof. apply (is_text_file_ignores_case true "NOTES.MD" "notes.md" None). reflexivity. Defined.

(** X24. [get_file_icon] compares the extension without case as well: two
    names that differ by case only get the same icon. *)
Theorem get_file_icon_ignores_case (path_is_dir : bool) (name1 name2 : string) :
  PyStr.lower name1 = PyStr.lower name2 →
  get_file_icon path_is_dir name1 = get_file_icon path_is_dir name2.
Proof.
  intros Hlower. unfold get_file_icon.
  by rewrite <-!Path_suffix_lower, Hlower.
Qed.

Lemma get_file_icon_ignores_case_witness :
  get_file_icon false "Logo.PNG" = get_file_icon false "logo.png".
Proof. apply (get_file_icon_ignores_case false "Logo.PNG" "logo.png"). reflexivity. Defined.

Lemma is_text_file_cut_character_witness :
  utf8_valid cut_bytes = true ∧ is_text_file true "data.bin" (Some cut_bytes) = false.
Proof.
  split; [vm_compute; reflexivity|].
  apply (is_text_file_cut_character "data.bin" cut_bytes (ascii_of_N 195)).
  - apply (bool_decide_unpack _). vm_compute. exact I.
  - reflexivity.
  - vm_compute. discriminate.
Defined.

(** ** What the tree never holds *)

Section never_listed.
Variable set_iter : gset string → list string.
Hypothesis set_iter_order : iteration_order set_iter.

(** X25. With show-hidden off, no node below the root has a name that
    starts with ['.'], at any depth. *)
Theorem hidden_entries_never_listed self root_path obj current_depth t n :
  show_hidden (config self) = false →
  build_tree set_iter self root_path obj current_depth = Some t →
  n ∈ descendants t →
  PyStr.startswith (name n) "." = false.
Proof.
  intros Hhidden Ht Hn.
  destruct (build_tree_descendant _ _ _ _ _ _ _ Ht Hn)
    as (rest & o & _ & (_ & -> & _)%build_tree_node & Hkeep & _).
  unfold should_ignore in Hkeep. rewrite Hhidden in Hkeep. cbn [negb andb] in Hkeep.
  by destruct (PyStr.startswith (Path_name (root_path ++ rest)) ".").
Qed.

(** X26. No node below the root is matched by an ignore rule unless an
    override rule matches it too: an entry that some ignore rule matches
    and no override rule matches is not in the tree. *)
Theorem ignored_entries_never_listed self root_path obj current_depth t n :
  build_tree set_iter self root_path obj current_depth = Some t →
  n ∈ descendants t →
  rule_matches (ignore_patterns self) (relative_path_of self (path n)) (is_dir n) →
  rule_matches (include_patterns self) (relative_path_of self (path n)) (is_dir n).
Proof.
  intros Ht Hn Hignored.
  destruct (build_tree_descendant _ _ _ _ _ _ _ Ht Hn)
    as (rest & o & _ & (Hp & _ & Hd & _)%build_tree_node & Hkeep & _).
  rewrite <-Hp, <-Hd in Hkeep. unfold should_ignore in Hkeep.
  destruct (negb (show_hidden (config self)) && PyStr.startswith (Path_name (path n)) ".");
    [done|].
  destruct (existsb _ (set_iter (include_patterns self))) eqn:Hinc.
  - by apply (existsb_set_iter set_iter set_iter_order) in Hinc.
  - apply (existsb_set_iter set_iter set_iter_order) in Hignored.
    by rewrite Hignored in Hkeep.
Qed.

End never_listed.

Lemma hidden_entries_never_listed_witness :
  PyStr.startswith (name notes_node) "." = false.
Proof.
  eapply (hidden_entries_never_listed elements (plain_processor None)
            ["project"] mixed_dir 0 _ notes_node).
  - reflexivity.
  - vm_compute. reflexivity.
  - apply list_elem_of_In. vm_compute. right. left. reflexivity.
Defined.

Lemma ignored_entries_never_listed_witness :
  rule_matches (include_patterns (log_processor true))
    (relative_path_of (log_processor true) (path important_node)) (is_dir important_node).
Proof.
  eapply (ignored_entries_never_listed elements elements_order (log_processor true)
            ["project"] logs_dir 0 _ important_node).
  - vm_compute. reflexivity.
  - apply list_elem_of_In. vm_compute. left. reflexivity.
  - exists "*.log". split; [|vm_compute; reflexivity].
    apply (bool_decide_unpack _). vm_compute. exact I.
Defined.

(** ** Anchored rules and directory rules *)

Lemma endswith_snoc_slash (s : string) : PyStr.endswith (s +:+ "/") "/" = true.
Proof.
  induction s as [|c s IH]; [done|].
  change (String c s +:+ "/") with (String c (s +:+ "/")).
  simpl. rewrite IH. apply orb_true_r.
Qed.

Lemma drop_last_snoc (s : string) (c : ascii) :
  PyStr.drop_last (s +:+ String c "") = s.
Proof.
  induction s as [|a s IH]; [done|].
  change (String a s +:+ String c "") with (String a (s +:+ String c "")).
  cbn [PyStr.drop_last]. rewrite IH.
  destruct s; reflexivity.
Qed.

(** X27. A rule made of ['/'] and plain text, not ending with ['/']
    (such as [/config.json]), matches one relative path only: that text.
    It matches nothing deeper in the tree. *)
Theorem matches_pattern_anchored (p pat : string) (d : bool) :
  Forall (λ c, literal_char c = true) (String.list_ascii_of_string pat) →
  PyStr.endswith ("/" +:+ pat) "/" = false →
  matches_pattern p ("/" +:+ pat) d = true ↔ p = pat.
Proof.
  intros Hlit Hend. unfold matches_pattern. rewrite Hend.
  change (PyStr.startswith ("/" +:+ pat) "/") with true. cbv iota.
  change (PyStr.drop_first ("/" +:+ pat)) with pat.
  rewrite fnmatch_literal by done. apply bool_decide_eq_true.
Qed.

Lemma matches_pattern_anchored_witness :
  matches_pattern "src/config.json" "/config.json" false = true ↔ "src/config.json" = "config.json".
Proof.
  apply (matches_pattern_anchored "src/config.json" "config.json" false); [|reflexivity].
  cbn [String.list_ascii_of_string]. repeat constructor.
Defined.

(** X28. A directory rule, a plain name followed by ['/'] (such as
    [build/]), matches exactly the directories whose relative path has
    that name as a segment: it matches no file. *)
Theorem matches_pattern_directory_rule (p dir_name : string) (d : bool) :
  plain_name dir_name = true →
  matches_pattern p (dir_name +:+ "/") d = true
  ↔ d = true ∧ dir_name ∈ PyStr.split "/" p.
Proof.
  intros Hplain. pose proof Hplain as [Hlit Hno]%plain_name_literal.
  unfold matches_pattern. rewrite endswith_snoc_slash, drop_last_snoc.
  destruct d; cbn [negb]; [|by split; [|intros []]].
  rewrite Hno.
  assert (PyStr.startswith dir_name "/" = false) as ->.
  { destruct dir_name as [|c rest]; [done|]. simpl in *.
    by apply orb_false_elim in Hno as [-> _]. }
  rewrite existsb_exists. setoid_rewrite <-list_elem_of_In. split.
  - intros (part & Hpart & Hm). rewrite fnmatch_literal in Hm by done.
    by apply bool_decide_eq_true in Hm as <-.
  - intros [_ Hin]. exists dir_name. split; [done|].
    rewrite fnmatch_literal by done. by apply bool_decide_eq_true.
Qed.

Lemma matches_pattern_directory_rule_witness :
  matches_pattern "web/build" "build/" true = true.
Proof.
  apply (matches_pattern_directory_rule "web/build" "build" true); [reflexivity|].
  split; [reflexivity|]. apply list_elem_of_In. vm_compute. right. left. reflexivity.
Defined.
